(** * A shallow embedding of the Tacview event-interpretation engine

    Sources: [backend/xml_parser.py] (event interpreter, combatant
    classifier, flight-time estimator, finalizer, mission deduplicator),
    [backend/validation.py] (the validators it calls) and
    [backendOld/nickname_matcher.py] (the identity resolver).

    Python [str] values are modelled as Rocq [string]s (ASCII); the
    character classes of the source's regular expressions and of
    [str.lower], [str.strip] are written out for ASCII.  Python dicts keyed
    by pilot name are stdpp [gmap]s. *)

From Stdlib Require Import String Ascii QArith Sorting.Permutation.
From stdpp Require Import base gmap strings list fin_maps.

Open Scope string_scope.

(* ------------------------------------------------------------------ *)
(** ** Character classes and string primitives *)

Definition in_range (lo hi : nat) (c : ascii) : bool :=
  (lo <=? nat_of_ascii c)%nat && (nat_of_ascii c <=? hi)%nat.

Definition is_upper (c : ascii) : bool := in_range 65 90 c.
Definition is_lower (c : ascii) : bool := in_range 97 122 c.
Definition is_digit (c : ascii) : bool := in_range 48 57 c.

(** [\w] of Python's [re] restricted to ASCII: letters, digits, [_]. *)
Definition is_word_char (c : ascii) : bool :=
  is_upper c || is_lower c || is_digit c || (nat_of_ascii c =? 95)%nat.

(** [str.isspace] on ASCII: [\t \n \v \f \r], [\x1c]-[\x1f] and space. *)
Definition is_space (c : ascii) : bool :=
  in_range 9 13 c || in_range 28 32 c.

Definition lower_char (c : ascii) : ascii :=
  if is_upper c then ascii_of_nat (nat_of_ascii c + 32) else c.

(** [str.lower] *)
Fixpoint lower (s : string) : string :=
  match s with
  | EmptyString => EmptyString
  | String c s' => String (lower_char c) (lower s')
  end.

Fixpoint filter_chars (p : ascii -> bool) (s : string) : string :=
  match s with
  | EmptyString => EmptyString
  | String c s' => if p c then String c (filter_chars p s') else filter_chars p s'
  end.

Fixpoint lstrip (s : string) : string :=
  match s with
  | String c s' => if is_space c then lstrip s' else s
  | EmptyString => EmptyString
  end.

Fixpoint rev_str (s : string) (acc : string) : string :=
  match s with
  | EmptyString => acc
  | String c s' => rev_str s' (String c acc)
  end.

(** [str.strip()] *)
Definition strip (s : string) : string :=
  rev_str (lstrip (rev_str (lstrip s) EmptyString)) EmptyString.

Fixpoint prefixb (p s : string) : bool :=
  match p, s with
  | EmptyString, _ => true
  | String a p', String b s' => Ascii.eqb a b && prefixb p' s'
  | String _ _, EmptyString => false
  end.

(** Python's [p in s] on strings. *)
Fixpoint contains (p s : string) : bool :=
  match s with
  | EmptyString => prefixb p s
  | String _ s' => prefixb p s || contains p s'
  end.

(** Truthiness of a Python string. *)
Definition truthy (s : string) : bool :=
  match s with EmptyString => false | _ => true end.

(* ------------------------------------------------------------------ *)
(** ** Identity resolver ([backendOld/nickname_matcher.py]) *)

(** [normalize_name]: [re.sub(r"[^\w]", "", name).lower()] *)
Definition normalize_name (name : string) : string :=
  lower (filter_chars is_word_char name).

(** An alias table is the JSON object [nickname -> fragments], iterated in
    insertion order. *)
Definition alias_table := list (string * list string).

Definition all_fragments_in (fragments : list string) (norm : string) : bool :=
  forallb (fun fragment => contains fragment norm) fragments.

Fixpoint first_full_match (tbl : alias_table) (norm : string) : option string :=
  match tbl with
  | [] => None
  | (nickname, fragments) :: rest =>
      if all_fragments_in fragments norm then Some nickname
      else first_full_match rest norm
  end.

(** [resolve_fuzzy_nickname(raw_name, nickname_fragments)] with the table
    passed explicitly. *)
Definition resolve_fuzzy_nickname (raw_name : string) (tbl : alias_table) : string :=
  let norm := normalize_name raw_name in
  match first_full_match tbl norm with
  | Some nickname => nickname
  | None => normalize_name raw_name
  end.

(** [DEFAULT_FRAGMENTS] *)
Definition DEFAULT_FRAGMENTS : alias_table :=
  [("drunkbonsai", ["drunk"; "bonsai"]);
   ("six", ["hhc"; "229"; "six"]);
   ("machinegun817", ["machinegun"; "817"; "gunner"]);
   ("bones", ["bones"; "springfield"]);
   ("fatal", ["fatal"; "101st"])].

Example resolve_test_1 : resolve_fuzzy_nickname "Machinegun 817 Gunner" DEFAULT_FRAGMENTS = "machinegun817".
Proof. reflexivity. Qed.
Example resolve_test_2 : resolve_fuzzy_nickname "Unknown Pilot" DEFAULT_FRAGMENTS = "unknownpilot".
Proof. reflexivity. Qed.
Example strip_test : strip "  ab c  " = "ab c".
Proof. reflexivity. Qed.
Example contains_test : contains "tank" (lower "DCS: A-10C II Tank Killer") = true.
Proof. reflexivity. Qed.

(* ------------------------------------------------------------------ *)
(** ** Configuration side-tables

    [config/profiles.json] (known players: callsign and aliases),
    [config/squadron_callsigns.json] (the roster) and [nicknames.json]
    (the alias fragment table), as the loaders return them. *)

Record profile := mkProfile { callsign : string; aliases : list string }.

Record config := mkConfig {
  profiles : list profile;
  squadron_callsigns : list string;
  nickname_fragments : alias_table
}.

(** [is_known_player] *)
Definition is_known_player (cfg : config) (pilot_name : string) : bool :=
  if negb (truthy pilot_name) then false
  else
    let pilot_lower := lower pilot_name in
    existsb (fun p =>
      String.eqb (lower (callsign p)) pilot_lower
      || existsb (fun a => String.eqb (lower a) pilot_lower) (aliases p))
      (profiles cfg).

(** Python's [s.split(sep)] for a non-empty separator. *)
Fixpoint split_aux (fuel : nat) (sep s cur : string) : list string :=
  match fuel with
  | O => [cur]
  | S f =>
      match s with
      | EmptyString => [cur]
      | String c s' =>
          if prefixb sep s
          then cur :: split_aux f sep (substring (String.length sep) (String.length s) s) ""
          else split_aux f sep s' (cur ++ String c "")
      end
  end.

Definition split (s sep : string) : list string :=
  split_aux (S (String.length s)) sep s "".

Example split_test : split "Gunner 1 | Machinegun817" "|" = ["Gunner 1 "; " Machinegun817"].
Proof. reflexivity. Qed.
Example split_test2 : split "a - b - c" " - " = ["a"; "b"; "c"].
Proof. reflexivity. Qed.
Definition player_aircraft : list string :=
  ["DCS: F4U-1D Corsair"; "DCS: F-5E Remastered";
   "DCS: Flaming Cliffs 2024"; "DCS: F-4E Phantom II"; "DCS: F-15E";
   "DCS: MB-339"; "DCS: Mirage F1"; "DCS: Mosquito FB VI";
   "DCS: A-10C II Tank Killer"; "DCS: P-47D Thunderbolt";
   "DCS: JF-17 Thunder"; "DCS: F-16C Viper"; "DCS: Fw 190 A-8";
   "DCS: I-16"; "DCS: MiG-19P Farmer"; "DCS: Christen Eagle II";
   "DCS: F-14 Tomcat"; "DCS: Yak-52"; "DCS: F/A-18C";
   "DCS: AV-8B Night Attack V/STOL"; "DCS: AJS-37 Viggen";
   "DCS: Spitfire LF Mk. IX"; "DCS: F-5E"; "DCS: M-2000C";
   "DCS: L-39 Albatros"; "DCS: C-101 Aviojet"; "DCS: Bf 109 K-4 Kurfürst";
   "DCS: MiG-21bis"; "DCS: Fw 190 D-9 Dora"; "DCS: P-51D Mustang";
   "DCS: A-10C Warthog"; "A-4 Skyhawk"; "A-4E"; "DCS: UH-1H Huey";
   "DCS: Mi-8MT Hip"; "DCS: Ka-50 Black Shark"; "DCS: SA342 Gazelle";
   "DCS: Mi-24P Hind"; "DCS: AH-64D Apache"; "DCS: OH-58D Kiowa Warrior";
   "DCS: AH-64E Apache"; "DCS: Mi-28N Havoc"; "DCS: Ka-50-3 Black Shark";
   "DCS: CH-47F Chinook"; "DCS: UH-60L Black Hawk"; "DCS: Mi-17 Hip";
   "DCS: AH-1W Super Cobra"; "DCS: AH-1Z Viper"; "DCS: UH-1Y Venom";
   "DCS: Mi-26 Halo"; "DCS: Ka-27 Helix"; "DCS: Ka-29 Helix";
   "DCS: Mi-35M Hind"; "DCS: Mi-28 Havoc"; "DCS: AH-6J Little Bird";
   "DCS: OH-6A Cayuse"; "DCS: UH-1N Twin Huey";
   "DCS: CH-53E Super Stallion"; "DCS: CH-46 Sea Knight";
   "DCS: V-22 Osprey"; "DCS: Mi-8"; "DCS: Ka-50"; "DCS: AH-64";
   "DCS: UH-1"; "DCS: Mi-24"; "DCS: SA342"; "DCS: OH-58D"; "DCS: CH-47";
   "DCS: UH-60"; "DCS: Mi-17"; "DCS: AH-1"; "DCS: Mi-26"; "DCS: Ka-27";
   "DCS: Mi-35"; "DCS: AH-6"; "DCS: OH-6"; "DCS: CH-53"; "DCS: CH-46";
   "DCS: V-22"; "MiG-15bis"; "F-5E Flaming Cliffs";
   "F-86F Flaming Cliffs"; "MiG-29 Flaming Cliffs";
   "Su-33 Flaming Cliffs"; "Su-27 Flaming Cliffs"; "F-15C Flaming Cliffs";
   "Su-25 Flaming Cliffs"; "A-10A Flaming Cliffs"; "F-86F Sabre";
   "F-4E Phantom"; "F-15E Strike Eagle"; "F-16C"; "F/A-18C Hornet";
   "AV-8B"; "A-10C"; "P-51D"; "MiG-21"; "MiG-29"; "Su-27"; "Su-33";
   "F-15C"; "Su-25"; "A-10A"; "F-5E"; "F-86F"; "MiG-15"; "Fw 190";
   "Bf 109"; "Spitfire"; "Mosquito"; "Corsair"; "Thunderbolt"; "Mustang";
   "Viggen"; "Mirage F1"; "M-2000C"; "L-39"; "C-101"; "Yak-52";
   "Christen Eagle"; "JF-17"; "I-16"; "MiG-19"; "Fw 190 A-8";
   "Fw 190 D-9"; "Bf 109 K-4"; "MB-339"; "AJS-37"; "AV-8B Night Attack";
   "A-4 Skyhawk"; "A-4E Skyhawk"; "Huey"; "Hip"; "Black Shark"; "Gazelle";
   "Hind"; "Apache"; "Kiowa"; "Havoc"; "Chinook"; "Black Hawk";
   "Super Cobra"; "Viper"; "Venom"; "Halo"; "Helix"; "Little Bird";
   "Cayuse"; "Twin Huey"; "Super Stallion"; "Sea Knight"; "Osprey"].

(** The compound-name check of the roster loop for one separator. *)
Definition compound_match (pilot_name sep callsign_lower : string) : bool :=
  if contains sep pilot_name then
    match split pilot_name sep with
    | [l; r] =>
        let left_part := lower (strip l) in
        let right_part := lower (strip r) in
        contains callsign_lower left_part || contains callsign_lower right_part
    | _ => false
    end
  else false.

Definition roster_match (pilot_name callsign : string) : bool :=
  let pilot_lower := lower pilot_name in
  let callsign_lower := lower callsign in
  contains callsign_lower pilot_lower || contains pilot_lower callsign_lower
  || compound_match pilot_name "|" callsign_lower
  || compound_match pilot_name " - " callsign_lower.

Definition aircraft_allowed (aircraft_name : string) : bool :=
  let aircraft_lower := lower aircraft_name in
  existsb (fun allowed =>
    contains (lower allowed) aircraft_lower || contains aircraft_lower (lower allowed))
    player_aircraft.

(** [is_player_client(pilot_name, aircraft_name, group)]; the roster is
    [load_squadron_callsigns_safe()]. *)
Definition is_player_client (cfg : config) (pilot_name aircraft_name group : string) : bool :=
  if negb (truthy pilot_name) || String.eqb (lower pilot_name) "unknown" then false
  else if is_known_player cfg pilot_name then true
  else if negb (aircraft_allowed aircraft_name) then false
  else
    match squadron_callsigns cfg with
    | [] => true
    | roster => existsb (roster_match pilot_name) roster
    end.

Definition no_config : config := mkConfig [] [] DEFAULT_FRAGMENTS.

Example ipc_test_1 : is_player_client no_config "Viper 1-1" "F-16C" "" = true.
Proof. reflexivity. Qed.
Example ipc_test_2 : is_player_client no_config "Viper 1-1" "Tu-95" "" = false.
Proof. reflexivity. Qed.
Example ipc_test_3 :
  is_player_client (mkConfig [] ["Machinegun817"] DEFAULT_FRAGMENTS)
    "Gunner 1 | Machinegun817" "Mi-24P Hind-F" "" = true.
Proof. reflexivity. Qed.

(* ------------------------------------------------------------------ *)
(** ** Validators ([backend/validation.py]) *)

Definition MAX_PILOT_NAME_LENGTH : nat := 100.
Definition MAX_AIRCRAFT_NAME_LENGTH : nat := 100.

Definition is_char (n : nat) (c : ascii) : bool := (nat_of_ascii c =? n)%nat.

(** [PILOT_NAME_PATTERN = ^[a-zA-Z0-9\s\-_|\.]+$] *)
Definition pilot_name_char (c : ascii) : bool :=
  is_upper c || is_lower c || is_digit c || is_space c
  || is_char 45 c || is_char 95 c || is_char 124 c || is_char 46 c.

(** [AIRCRAFT_PATTERN = ^[a-zA-Z0-9\s\-_\.\/]+$] *)
Definition aircraft_name_char (c : ascii) : bool :=
  is_upper c || is_lower c || is_digit c || is_space c
  || is_char 45 c || is_char 95 c || is_char 46 c || is_char 47 c.

Fixpoint all_chars (p : ascii -> bool) (s : string) : bool :=
  match s with
  | EmptyString => true
  | String c s' => p c && all_chars p s'
  end.

(** [validate_pilot_name], keeping only the verdict. *)
Definition validate_pilot_name (name : string) : bool :=
  truthy name && (String.length name <=? MAX_PILOT_NAME_LENGTH)%nat
  && all_chars pilot_name_char name.

(** [validate_aircraft_name]: the whitelist check only logs. *)
Definition validate_aircraft_name (name : string) : bool :=
  truthy name && (String.length name <=? MAX_AIRCRAFT_NAME_LENGTH)%nat
  && all_chars aircraft_name_char name.

(** Removed by [sanitize_string]: [\x00-\x08\x0B\x0C\x0E-\x1F\x7F\n\r]. *)
Definition control_char (c : ascii) : bool :=
  negb (is_char 9 c) && (in_range 0 31 c || is_char 127 c).

(** [sanitize_string(value, max_length)] *)
Definition sanitize_string (value : string) (max_length : nat) : string :=
  if negb (truthy value) then ""
  else strip (substring 0 max_length (filter_chars (fun c => negb (control_char c)) value)).

(* ------------------------------------------------------------------ *)
(** ** Python's [float()] on element text

    A decimal literal with optional sign, fraction and exponent, surrounded
    by whitespace, parses to its exact rational value; anything else raises
    [ValueError] ([None]).  Python's [inf]/[nan] spellings and digit
    underscores are not modelled (they are treated as raising), and the
    parsed value is the exact decimal, not its nearest double. *)

Fixpoint take_digits (s : string) : list Z * string :=
  match s with
  | String c s' =>
      if is_digit c then
        let (ds, r) := take_digits s' in ((Z.of_nat (nat_of_ascii c) - 48)%Z :: ds, r)
      else ([], s)
  | EmptyString => ([], EmptyString)
  end.

Definition digits_value (ds : list Z) : Z := fold_left (fun acc d => acc * 10 + d)%Z ds 0%Z.

Definition take_sign (s : string) : Z * string :=
  match s with
  | String c r => if is_char 45 c then (-1, r)%Z else if is_char 43 c then (1, r)%Z else (1, s)%Z
  | EmptyString => (1%Z, s)
  end.

Definition scale10 (m e : Z) : Q :=
  if (0 <=? e)%Z then inject_Z (m * 10 ^ e) else (m # Z.to_pos (10 ^ (- e))).

Definition parse_float (text : string) : option Q :=
  let t := strip text in
  let (sgn, t1) := take_sign t in
  let (d1, t2) := take_digits t1 in
  let '(d2, t3) :=
    match t2 with
    | String c r => if is_char 46 c then take_digits r else ([], t2)
    | EmptyString => ([], t2)
    end in
  if (length d1 =? 0)%nat && (length d2 =? 0)%nat then None
  else
    let mant := (sgn * digits_value (d1 ++ d2))%Z in
    let k := Z.of_nat (length d2) in
    match t3 with
    | EmptyString => Some (scale10 mant (- k))
    | String c r =>
        if is_char 101 c || is_char 69 c then
          let (esgn, r1) := take_sign r in
          let (de, r2) := take_digits r1 in
          match de, r2 with
          | _ :: _, EmptyString => Some (scale10 mant (esgn * digits_value de - k)%Z)
          | _, _ => None
          end
        else None
    end.

Definition parses_to (text : string) (q : Q) : bool :=
  match parse_float text with Some v => Qeq_bool v q | None => false end.

Example parse_float_test_1 : parses_to " 41.5 " (83 # 2) = true.
Proof. reflexivity. Qed.
Example parse_float_test_2 : parses_to "-1e3" (-1000 # 1) = true.
Proof. reflexivity. Qed.
Example parse_float_test_3 : parse_float "abc" = None.
Proof. reflexivity. Qed.

(* ------------------------------------------------------------------ *)
(** ** Telemetry events (the XML sub-structures [process_event] reads)

    A child element's text is [Some t] when the element is present ([t] is
    [""] for an element without text) and [None] when it is absent. *)

Record obj := mkObj {
  o_pilot : option string;      (* <Pilot> *)
  o_name : option string;       (* <Name>: the aircraft / unit name *)
  o_group : option string;      (* <Group> *)
  o_type : option string;       (* <Type> *)
  o_coalition : option string   (* <Coalition> *)
}.

Record location := mkLocation { l_lat : option string; l_lon : option string }.

Record event := mkEvent {
  e_action : option string;
  e_primary : option obj;
  e_secondary : option obj;
  e_location : option location;
  e_time : option string
}.

(** [elem.findtext(tag, default)] *)
Definition findtext (t : option string) (default : string) : string :=
  match t with Some s => s | None => default end.

Definition opt_truthy (t : option string) : bool :=
  match t with Some s => truthy s | None => false end.

(* ------------------------------------------------------------------ *)
(** ** The per-pilot accumulator (the [defaultdict] of [parse_tacview_xml]) *)

Record mission := mkMission {
  m_date : string;
  m_mission : string;
  flight_minutes : Z;
  aa_kills : Z;
  ag_kills : Z;
  frat_kills : Z;
  rtb : Z;
  res : Z;
  mia : Z;
  kia : Z;
  ctd : Z;
  platform : string;
  aircraft : string;
  ejections : Z;
  deaths : Z;
  sorties : Z;
  total_kills : Z;
  kd_ratio : string;
  nicknames : list string
}.

(** The [defaultdict] factory of [parse_tacview_xml]. *)
Definition default_mission (mission_date mission_name : string)
    (mission_duration : Z) (plat : string) : mission :=
  {| m_date := mission_date; m_mission := mission_name;
     flight_minutes := Z.quot mission_duration 60;
     aa_kills := 0; ag_kills := 0; frat_kills := 0; rtb := 0; res := 0;
     mia := 0; kia := 0; ctd := 0; platform := plat; aircraft := "Unknown";
     ejections := 0; deaths := 0; sorties := 1; total_kills := 0;
     kd_ratio := "N/A"; nicknames := [] |}.

(** Fields written by the interpreter, the estimator and the finalizer. *)
Inductive field := F_aa | F_ag | F_frat | F_rtb | F_kia | F_ejections | F_deaths | F_flight.

Definition get_field (f : field) (r : mission) : Z :=
  match f with
  | F_aa => aa_kills r | F_ag => ag_kills r | F_frat => frat_kills r
  | F_rtb => rtb r | F_kia => kia r | F_ejections => ejections r
  | F_deaths => deaths r | F_flight => flight_minutes r
  end.

Definition set_field (f : field) (v : Z) (r : mission) : mission :=
  {| m_date := m_date r; m_mission := m_mission r;
     flight_minutes := match f with F_flight => v | _ => flight_minutes r end;
     aa_kills := match f with F_aa => v | _ => aa_kills r end;
     ag_kills := match f with F_ag => v | _ => ag_kills r end;
     frat_kills := match f with F_frat => v | _ => frat_kills r end;
     rtb := match f with F_rtb => v | _ => rtb r end;
     res := res r; mia := mia r;
     kia := match f with F_kia => v | _ => kia r end;
     ctd := ctd r; platform := platform r; aircraft := aircraft r;
     ejections := match f with F_ejections => v | _ => ejections r end;
     deaths := match f with F_deaths => v | _ => deaths r end;
     sorties := sorties r; total_kills := total_kills r;
     kd_ratio := kd_ratio r; nicknames := nicknames r |}.

Definition incr (f : field) (r : mission) : mission := set_field f (get_field f r + 1) r.

Definition set_aircraft (a : string) (r : mission) : mission :=
  {| m_date := m_date r; m_mission := m_mission r; flight_minutes := flight_minutes r;
     aa_kills := aa_kills r; ag_kills := ag_kills r; frat_kills := frat_kills r;
     rtb := rtb r; res := res r; mia := mia r; kia := kia r; ctd := ctd r;
     platform := platform r; aircraft := a; ejections := ejections r;
     deaths := deaths r; sorties := sorties r; total_kills := total_kills r;
     kd_ratio := kd_ratio r; nicknames := nicknames r |}.

Definition add_nickname (pilot : string) (r : mission) : mission :=
  if existsb (String.eqb pilot) (nicknames r) then r
  else
  {| m_date := m_date r; m_mission := m_mission r; flight_minutes := flight_minutes r;
     aa_kills := aa_kills r; ag_kills := ag_kills r; frat_kills := frat_kills r;
     rtb := rtb r; res := res r; mia := mia r; kia := kia r; ctd := ctd r;
     platform := platform r; aircraft := aircraft r; ejections := ejections r;
     deaths := deaths r; sorties := sorties r; total_kills := total_kills r;
     kd_ratio := kd_ratio r; nicknames := (nicknames r ++ [pilot])%list |}.

Record pos := mkPos { lat : Q; lon : Q; time : Q }.

(** [d[k]] on a [defaultdict]: the stored value, or a fresh default. *)
Definition get_or {A} (dflt : A) (o : option A) : A :=
  match o with Some v => v | None => dflt end.

(** [d[k] = f(d[k])] on a [defaultdict] (a read alone already inserts). *)
Definition upd {A} (dflt : A) (k : string) (f : A -> A) (m : gmap string A) : gmap string A :=
  <[k := f (get_or dflt (m !! k))]> m.

(** Engine state: [pilot_missions] and [pilot_positions]. *)
Record state := mkState {
  pilot_missions : gmap string mission;
  pilot_positions : gmap string (list pos)
}.

Definition upd_mission (dflt : mission) (k : string) (f : mission -> mission) (st : state) : state :=
  mkState (upd dflt k f (pilot_missions st)) (pilot_positions st).

Definition ground_types : list string :=
  ["Infantry"; "SAM/AAA"; "Vehicle"; "Tank"; "Artillery"; "Ship"; "Boat"; "Structure"; "Ground"].

(* ------------------------------------------------------------------ *)
(** ** The event interpreter: [process_event]

    The body runs inside [try ... except Exception: pass]: an exception
    (here only [float()] raising on non-numeric element text) abandons the
    rest of the event and keeps the mutations made before it. *)

(** The kill / death / landing / ejection branch, after the position step.
    [pilot], [aircraft] and [group] are the primary's sanitized labels. *)
Definition event_effects (cfg : config) (dflt : mission) (ev : event) (prim : obj)
    (pilot aircraft group nickname : string) (st : state) : state :=
  let tbl := nickname_fragments cfg in
  match e_action ev with
  | Some "HasBeenDestroyed" =>
      match e_secondary ev with
      | Some secondary =>
          let attacker := strip (findtext (o_pilot secondary) "") in
          if truthy attacker && negb (String.eqb (lower attacker) "unknown")
             && is_player_client cfg attacker aircraft group then
            let attacker_nick := resolve_fuzzy_nickname attacker tbl in
            let destroyed_type := findtext (o_type prim) "" in
            let destroyed_coalition := findtext (o_coalition prim) "" in
            let attacker_coalition := findtext (o_coalition secondary) "" in
            if String.eqb destroyed_coalition attacker_coalition && truthy destroyed_coalition
            then upd_mission dflt attacker_nick (incr F_frat) st
            else if existsb (String.eqb destroyed_type) ground_types
            then upd_mission dflt attacker_nick (incr F_ag) st
            else upd_mission dflt attacker_nick (incr F_aa) st
          else st
      | None =>
          let victim_nick := resolve_fuzzy_nickname pilot tbl in
          upd_mission dflt victim_nick (incr F_deaths)
            (upd_mission dflt victim_nick (incr F_kia) st)
      end
  | Some "HasLanded" => upd_mission dflt nickname (incr F_rtb) st
  | Some "HasEjected" => upd_mission dflt nickname (incr F_ejections) st
  | _ => st
  end.

(** The position step: [inr st'] to continue with [st'], [inl st'] when
    [float()] raises, with the state [st'] the exception leaves.  When
    [float(lat)] or [float(lon)] raises, [pilot_positions[nickname]] has
    already been evaluated for [.append], so the [defaultdict] holds the
    key (with [[]] if it was absent). *)
Definition record_position (ev : event) (nickname : string) (st : state) : state + state :=
  match e_location ev with
  | None => inr st
  | Some loc =>
      let time_val :=
        match e_time ev with
        | Some t => if truthy t then parse_float t else Some 0%Q
        | None => Some 0%Q
        end in
      match time_val with
      | None => inl st
      | Some tv =>
          if opt_truthy (l_lat loc) && opt_truthy (l_lon loc) && negb (Qeq_bool tv 0) then
            match parse_float (findtext (l_lat loc) ""), parse_float (findtext (l_lon loc) "") with
            | Some la, Some lo =>
                inr (mkState (pilot_missions st)
                       (upd [] nickname (fun l => (l ++ [mkPos la lo tv])%list) (pilot_positions st)))
            | _, _ =>
                inl (mkState (pilot_missions st) (upd [] nickname (fun l => l) (pilot_positions st)))
            end
          else inr st
      end
  end.

(** [aircraft = primary.findtext("Name", default="Unknown")], replaced by
    ["Unknown"] when [validate_aircraft_name] fails, then sanitized. *)
Definition sanitized_aircraft (prim : obj) : string :=
  let aircraft := findtext (o_name prim) "Unknown" in
  let aircraft := if validate_aircraft_name aircraft then aircraft else "Unknown" in
  sanitize_string aircraft 100.

Definition process_event (cfg : config) (dflt : mission) (ev : event) (st : state) : state :=
  match e_primary ev with
  | None => st
  | Some prim =>
      let pilot := strip (findtext (o_pilot prim) "") in
      let group := findtext (o_group prim) "" in
      if negb (truthy pilot) || String.eqb (lower pilot) "unknown" then st
      else if negb (validate_pilot_name pilot) then st
      else
        let pilot := sanitize_string pilot 100 in
        let aircraft := sanitized_aircraft prim in
        if negb (is_player_client cfg pilot aircraft group) then st
        else
          let nickname := resolve_fuzzy_nickname pilot (nickname_fragments cfg) in
          if negb (validate_pilot_name nickname) then st
          else
            let st1 := upd_mission dflt nickname (set_aircraft aircraft)
                         (upd_mission dflt nickname (add_nickname pilot) st) in
            match record_position ev nickname st1 with
            | inl st2 => st2
            | inr st2 => event_effects cfg dflt ev prim pilot aircraft group nickname st2
            end
  end.

(** [for event in events.findall("Event"): process_event(...)] *)
Definition process_events (cfg : config) (dflt : mission) (evs : list event) (st : state) : state :=
  fold_left (fun s ev => process_event cfg dflt ev s) evs st.

(* ------------------------------------------------------------------ *)
(** ** The flight-time estimator: [calculate_actual_flight_hours]

    [calculate_distance(p, q) < 100] is
    [sqrt(dlat**2 + dlon**2) * 111000 < 100]; on exact rationals this is
    [(dlat**2 + dlon**2) * 111000**2 < 100**2] (both sides non-negative).
    Double rounding is not modelled. *)

Definition qlt_bool (a b : Q) : bool := negb (Qle_bool b a).

Definition distance_below_100 (p q : pos) : bool :=
  let dlat := (lat q - lat p)%Q in
  let dlon := (lon q - lon p)%Q in
  qlt_bool ((dlat * dlat + dlon * dlon) * (111000 * 111000))%Q (100 * 100)%Q.

(** [positions.sort(key=lambda x: x['time'])]: a stable sort by time. *)
Fixpoint insert_by_time (x : pos) (l : list pos) : list pos :=
  match l with
  | [] => [x]
  | y :: l' => if Qle_bool (time x) (time y) then x :: y :: l' else y :: insert_by_time x l'
  end.

Fixpoint sort_by_time (l : list pos) : list pos :=
  match l with
  | [] => []
  | x :: l' => insert_by_time x (sort_by_time l')
  end.

(** The loop over the sorted samples.  Its state is
    [(total_flight_time, last_position, stationary_start)]; note that
    [continue] also skips [last_position = pos]. *)
Fixpoint flight_loop (ps : list pos) (total : Q) (last_position : option pos)
    (stationary_start : option Q) : Q :=
  match ps with
  | [] => total
  | p :: rest =>
      match last_position with
      | None => flight_loop rest total (Some p) stationary_start
      | Some lp =>
          let time_diff := (time p - time lp)%Q in
          if distance_below_100 lp p then
            match stationary_start with
            | None => flight_loop rest (total + time_diff)%Q (Some p) (Some (time lp))
            | Some s =>
                if qlt_bool 900 (time p - s)%Q
                then flight_loop rest total last_position stationary_start
                else flight_loop rest (total + time_diff)%Q (Some p) stationary_start
            end
          else flight_loop rest (total + time_diff)%Q (Some p) None
      end
  end.

Definition total_flight_time (positions : list pos) : Q :=
  flight_loop (sort_by_time positions) 0 None None.

(** [int(total_flight_time / 60)]: truncation toward zero. *)
Definition minutes_of_seconds (t : Q) : Z := Z.quot (Qnum t) (Zpos (Qden t) * 60).

(** One iteration of [for pilot_name, positions in pilot_positions.items()]. *)
Definition flight_hours_step (pm : gmap string mission) (entry : string * list pos)
    : gmap string mission :=
  let (pilot_name, positions) := entry in
  match pm !! pilot_name with
  | None => pm
  | Some r =>
      match positions with
      | [] => pm
      | _ :: _ =>
          <[pilot_name := set_field F_flight (minutes_of_seconds (total_flight_time positions)) r]> pm
      end
  end.

(** Each step reads and writes the entry of its own key only, so the
    iteration order of the dict does not matter. *)
Definition calculate_actual_flight_hours (pm : gmap string mission)
    (pp : gmap string (list pos)) : gmap string mission :=
  fold_left flight_hours_step (map_to_list pp) pm.

Definition stationary_trace : list pos := [mkPos 0 0 0; mkPos 0 0 1000].

Example flight_test_moving :
  minutes_of_seconds (total_flight_time [mkPos 0 0 0; mkPos 1 0 600; mkPos 2 0 1200]) = 20%Z.
Proof. reflexivity. Qed.

(* ------------------------------------------------------------------ *)
(** ** The finalizer: [finalize_pilot_data] *)

Definition MAX_MISSION_NAME_LENGTH : nat := 200.

(** [MISSION_NAME_PATTERN = ^[a-zA-Z0-9\s\-_\.]+$] *)
Definition mission_name_char (c : ascii) : bool :=
  is_upper c || is_lower c || is_digit c || is_space c
  || is_char 45 c || is_char 95 c || is_char 46 c.

Definition validate_mission_name (name : string) : bool :=
  truthy name && (String.length name <=? MAX_MISSION_NAME_LENGTH)%nat
  && all_chars mission_name_char name.

Definition VALID_PLATFORMS : list string := ["DCS"; "BMS"; "IL2"].

Definition validate_platform (p : string) : bool :=
  truthy p && existsb (String.eqb p) VALID_PLATFORMS.

(** [validate_numeric_value(v, field, min_val=0, max_val=10000)] *)
Definition validate_numeric_value (v : Z) : bool := (0 <=? v)%Z && (v <=? 10000)%Z.

Definition clamp_field (r : mission) (f : field) : mission :=
  if validate_numeric_value (get_field f r) then r else set_field f 0 r.

Definition numeric_fields : list field :=
  [F_aa; F_ag; F_frat; F_rtb; F_ejections; F_deaths; F_flight].

Definition set_strings (ms ac pl : string) (r : mission) : mission :=
  {| m_date := m_date r; m_mission := ms; flight_minutes := flight_minutes r;
     aa_kills := aa_kills r; ag_kills := ag_kills r; frat_kills := frat_kills r;
     rtb := rtb r; res := res r; mia := mia r; kia := kia r; ctd := ctd r;
     platform := pl; aircraft := ac; ejections := ejections r;
     deaths := deaths r; sorties := sorties r; total_kills := total_kills r;
     kd_ratio := kd_ratio r; nicknames := nicknames r |}.

Definition set_derived (tk : Z) (kd : string) (r : mission) : mission :=
  {| m_date := m_date r; m_mission := m_mission r; flight_minutes := flight_minutes r;
     aa_kills := aa_kills r; ag_kills := ag_kills r; frat_kills := frat_kills r;
     rtb := rtb r; res := res r; mia := mia r; kia := kia r; ctd := ctd r;
     platform := platform r; aircraft := aircraft r; ejections := ejections r;
     deaths := deaths r; sorties := sorties r; total_kills := tk;
     kd_ratio := kd; nicknames := nicknames r |}.

(** Decimal digits of a non-negative integer. *)
Fixpoint digits_rev (fuel : nat) (n : Z) : string :=
  match fuel with
  | O => ""
  | S f =>
      let d := ascii_of_nat (48 + Z.to_nat (n mod 10)) in
      if (n <? 10)%Z then String d "" else (digits_rev f (n / 10) ++ String d "")
  end.

Definition string_of_Z (n : Z) : string := digits_rev (S (Z.to_nat (Z.log2 n))) n.

(** [n / d] rounded to an integer, half to even ([d > 0]). *)
Definition round_div_even (n d : Z) : Z :=
  let q := (n / d)%Z in
  let r := (n mod d)%Z in
  if (2 * r <? d)%Z then q
  else if (d <? 2 * r)%Z then q + 1
  else if Z.even q then q else q + 1.

(** [n * 2^(-e) / d] as a fraction [(numerator, denominator)]. *)
Definition scaled_ratio (n d e : Z) : Z * Z :=
  if (e <=? 0)%Z then ((n * 2 ^ (- e))%Z, d) else (n, (d * 2 ^ e)%Z).

(** Python's [n / d] on two ints ([n >= 0], [d > 0], quotient in the
    normal range): the double nearest to the exact quotient, ties to even,
    as [(m, e)] with value [m * 2^e] and [m < 2^53] (or [m = 2^53] after
    rounding up).  [e0] puts the exact quotient in [(2^52, 2^54)]; one more
    step when it is at least [2^53]. *)
Definition double_of_ratio (n d : Z) : Z * Z :=
  let e0 := (Z.log2 n - Z.log2 d - 53)%Z in
  let e := if (2 ^ 53 <=? fst (scaled_ratio n d e0) / snd (scaled_ratio n d e0))%Z
           then (e0 + 1)%Z else e0 in
  (round_div_even (fst (scaled_ratio n d e)) (snd (scaled_ratio n d e)), e).

(** The double [m * 2^e] in hundredths, rounded half to even on its exact
    binary value, as [format(x, ".2f")] does. *)
Definition double_hundredths (m e : Z) : Z :=
  if (0 <=? e)%Z then (m * 2 ^ e * 100)%Z else round_div_even (m * 100) (2 ^ (- e)).

(** [f"{total_kills / deaths:.2f}"] for [total_kills >= 0], [deaths > 0]:
    the quotient is first rounded to a double, then the double is
    formatted. *)
Definition format_ratio (total : Z) (d : Z) : string :=
  let h := double_hundredths (fst (double_of_ratio total d)) (snd (double_of_ratio total d)) in
  let frac := (h mod 100)%Z in
  string_of_Z (h / 100) ++ "." ++ (if (frac <? 10)%Z then "0" else "") ++ string_of_Z frac.

Example format_ratio_test_1 : format_ratio 5 2 = "2.50".
Proof. reflexivity. Qed.
Example format_ratio_test_2 : format_ratio 1 3 = "0.33".
Proof. reflexivity. Qed.
Example format_ratio_test_3 : format_ratio 1205 1 = "1205.00".
Proof. reflexivity. Qed.
Example format_ratio_test_4 : format_ratio 1 40 = "0.03".
Proof. reflexivity. Qed.
Example format_ratio_test_5 : format_ratio 3 40 = "0.07".
Proof. reflexivity. Qed.

Definition INFINITY_SIGN : string := "∞".

(** The body of the loop for one pilot; [None] when the record is skipped
    as inactive. *)
Definition finalize_one (data : mission) : option mission :=
  let data := fold_left clamp_field numeric_fields data in
  let ms := if validate_mission_name (m_mission data) then m_mission data else "Unknown Mission" in
  let ac := if validate_aircraft_name (aircraft data) then aircraft data else "Unknown" in
  let pl := if validate_platform (platform data) then platform data else "DCS" in
  let data := set_strings (sanitize_string ms 200) (sanitize_string ac 200)
                          (sanitize_string pl 200) data in
  let total_activity := (aa_kills data + ag_kills data + frat_kills data + rtb data + kia data)%Z in
  if (0 <? total_activity)%Z || (0 <? flight_minutes data)%Z then
    let tk := (aa_kills data + ag_kills data)%Z in
    let d := deaths data in
    let kd :=
      if (d =? 0)%Z then (if (0 <? tk)%Z then INFINITY_SIGN else "N/A")
      else if (0 <? d)%Z then format_ratio tk d else "N/A" in
    Some (set_derived tk kd data)
  else None.

(** [finalized[nickname] = data] for the records kept: the loop builds a new
    dict over a subset of the keys, i.e. [omap]. *)
Definition finalize_pilot_data (pm : gmap string mission) : gmap string mission :=
  omap finalize_one pm.

(* ------------------------------------------------------------------ *)
(** ** The mission deduplicator

    [config/processed_missions.json]: a dict, in insertion order, from the
    key [f"{mission_name}_{mission_date}"] to an entry whose [processed_at]
    ISO timestamp is modelled by an integer clock reading (ISO strings of
    the same format compare as the times they denote).  A missing file is
    the empty ledger. *)

Record ledger_entry := mkEntry {
  le_mission_name : string;
  le_mission_date : string;
  processed_at : Z
}.

Definition ledger := list (string * ledger_entry).

Definition mission_key (mission_name mission_date : string) : string :=
  mission_name ++ "_" ++ mission_date.

(** [is_mission_already_processed] *)
Definition is_mission_already_processed (l : ledger) (mission_name mission_date : string) : bool :=
  existsb (fun kv => String.eqb (fst kv) (mission_key mission_name mission_date)) l.

(** [d[k] = v] on a dict: replace in place, or append a new key. *)
Fixpoint dict_set (k : string) (v : ledger_entry) (l : ledger) : ledger :=
  match l with
  | [] => [(k, v)]
  | (k', v') :: l' => if String.eqb k k' then (k, v) :: l' else (k', v') :: dict_set k v l'
  end.

(** [sorted(items, key=lambda x: x[1].get('processed_at', ''))], stable. *)
Fixpoint insert_by_stamp (x : string * ledger_entry) (l : ledger) : ledger :=
  match l with
  | [] => [x]
  | y :: l' =>
      if (processed_at (snd x) <=? processed_at (snd y))%Z then x :: y :: l'
      else y :: insert_by_stamp x l'
  end.

Fixpoint sort_by_stamp (l : ledger) : ledger :=
  match l with
  | [] => []
  | x :: l' => insert_by_stamp x (sort_by_stamp l')
  end.

(** [mark_mission_as_processed], with [now] the clock reading. *)
Definition mark_mission_as_processed (l : ledger) (now : Z) (mission_name mission_date : string) : ledger :=
  let l1 := dict_set (mission_key mission_name mission_date)
                     (mkEntry mission_name mission_date now) l in
  if (100 <? length l1)%nat then
    let sorted := sort_by_stamp l1 in
    drop (length sorted - 100) sorted
  else l1.

(* ------------------------------------------------------------------ *)
(** ** The pipeline: [parse_tacview_xml] and [parse_xml]

    A parsed document carries the mission metadata as the extraction
    helpers ([extract_mission_name], [extract_mission_date],
    [extract_mission_duration_safe], [detect_platform]) return it (they
    never raise), and the [Events] section: [None] when [root.find("Events")]
    is [None], else its [Event] children in document order. *)

Record document := mkDocument {
  doc_mission_name : string;
  doc_mission_date : string;
  doc_mission_duration : Z;
  doc_platform : string;
  doc_events : option (list event)
}.

(** The dict returned by [parse_tacview_xml]: the duplicate marker or the
    finalized pilot data. *)
Inductive tacview_result :=
  | DuplicateMarker (mission_name mission_date : string)
  | PilotData (data : gmap string mission).

Definition empty_state : state := mkState ∅ ∅.

(** [parse_tacview_xml(xml_path)]: the result and the updated ledger;
    [None] for a document [ET.parse] rejects (the [except] returns [{}]). *)
Definition parse_tacview_xml (cfg : config) (l : ledger) (now : Z) (doc : option document)
    : tacview_result * ledger :=
  match doc with
  | None => (PilotData ∅, l)
  | Some d =>
      let mission_name := doc_mission_name d in
      let mission_date := doc_mission_date d in
      if is_mission_already_processed l mission_name mission_date
      then (DuplicateMarker mission_name mission_date, l)
      else
        match doc_events d with
        | None => (PilotData ∅, l)
        | Some evs =>
            let dflt := default_mission mission_date mission_name
                          (doc_mission_duration d) (doc_platform d) in
            let st := process_events cfg dflt evs empty_state in
            let pm := calculate_actual_flight_hours (pilot_missions st) (pilot_positions st) in
            let l' := mark_mission_as_processed l now mission_name mission_date in
            (PilotData (finalize_pilot_data pm), l')
        end
  end.

(** What [parse_xml] returns, or the [APIError] it raises. *)
Inductive parse_response :=
  | Response (success duplicate : bool) (pilots_count : nat) (pilot_data : gmap string mission)
  | APIError (error_code : string) (status_code : Z).

Definition ends_with_xml (path : string) : bool :=
  let p := lower path in
  let n := String.length p in
  (4 <=? n)%nat && String.eqb (substring (n - 4) 4 p) ".xml".

(** [parse_xml(filepath)].  A pilot map that itself has a key
    ["duplicate"] is taken by [pilot_data.get("duplicate")] for the marker;
    the lookups of ["mission_name"] and ["mission_date"] that follow raise
    [KeyError] unless both keys are present too. *)
Definition parse_xml (cfg : config) (l : ledger) (now : Z) (file_exists : bool)
    (filepath : string) (doc : option document) : parse_response * ledger :=
  if negb file_exists then (APIError "FILE_NOT_FOUND" 404, l)
  else if negb (ends_with_xml filepath) then (APIError "FILE_INVALID_TYPE" 400, l)
  else
    let (res, l') := parse_tacview_xml cfg l now doc in
    match res with
    | DuplicateMarker _ _ => (Response true true 0 ∅, l')
    | PilotData m =>
        if bool_decide (is_Some (m !! "duplicate")) then
          if bool_decide (is_Some (m !! "mission_name")) && bool_decide (is_Some (m !! "mission_date"))
          then (Response true true 0 ∅, l')
          else (APIError "DATA_PROCESSING_ERROR" 500, l')
        else if bool_decide (m = ∅) then (APIError "DATA_PROCESSING_ERROR" 400, l')
        else (Response true false (size m) m, l')
    end.

(* ------------------------------------------------------------------ *)
(** ** Validators of the callsign roster ([backend/validation.py]) *)

Definition MAX_CALLSIGN_LENGTH : nat := 50.
Definition MAX_CALLSIGNS_COUNT : nat := 100.

(** [validate_callsign]; [None] is [(True, None)], [Some e] is
    [(False, e)].  [CALLSIGN_PATTERN] is [PILOT_NAME_PATTERN]. *)
Definition validate_callsign (callsign : string) : option string :=
  if negb (truthy callsign) then Some "Callsign is required"
  else if (MAX_CALLSIGN_LENGTH <? String.length callsign)%nat
  then Some "Callsign too long (max 50 characters)"
  else if negb (all_chars pilot_name_char callsign)
  then Some "Callsign contains invalid characters"
  else None.

(** [f"{n}"] for an integer. *)
Definition str_int (n : Z) : string :=
  if (n <? 0)%Z then "-" ++ string_of_Z (- n) else string_of_Z n.

(** The [for i, callsign in enumerate(callsigns)] loop. *)
Fixpoint first_callsign_error (i : nat) (callsigns : list string) : option string :=
  match callsigns with
  | [] => None
  | callsign :: rest =>
      match validate_callsign callsign with
      | Some error => Some ("Callsign " ++ str_int (Z.of_nat (i + 1)) ++ ": " ++ error)
      | None => first_callsign_error (S i) rest
      end
  end.

(** [validate_callsigns_list] on a JSON array of strings. *)
Definition validate_callsigns_list (callsigns : list string) : option string :=
  if (MAX_CALLSIGNS_COUNT <? length callsigns)%nat then Some "Too many callsigns (max 100)"
  else first_callsign_error 0 callsigns.

(** The body of the [POST /squadron-callsigns] handler of
    [backend/app.py] after the JSON checks: the validation error ([inl]), or
    the list handed to [save_squadron_callsigns] ([inr]). *)
Definition update_squadron_callsigns (callsigns : list string) : string + list string :=
  match validate_callsigns_list callsigns with
  | Some error_msg => inl error_msg
  | None =>
      inr (map (fun callsign => sanitize_string (strip callsign) 1000)
             (List.filter (fun callsign => truthy (strip callsign)) callsigns))
  end.

(* ------------------------------------------------------------------ *)
(** ** Platform detection: [detect_platform] *)

(** [x.lower() if x else ""] for the [generator] attribute and the text of
    the first [Source] element ([None] when absent). *)
Definition lower_or_empty (x : option string) : string :=
  match x with Some s => if truthy s then lower s else "" | None => "" end.

(** [detect_platform(root)]: [generator], [source] as above; [mission] is
    [root.find(".//Mission")], given by the text of its [Title] child. *)
Definition detect_platform (generator source : option string) (mission : option (option string)) : string :=
  let generator := lower_or_empty generator in
  let source := lower_or_empty source in
  let platform :=
    if contains "dcs" generator then "DCS"
    else if contains "bms" generator || contains "falcon" generator then "BMS"
    else if contains "il2" generator || contains "il-2" generator || contains "sturmovik" generator then "IL2"
    else if contains "tacview" generator then "Tacview"
    else if contains "dcs" source then "DCS"
    else if contains "bms" source || contains "falcon" source then "BMS"
    else if contains "il2" source || contains "il-2" source || contains "sturmovik" source then "IL2"
    else match mission with
         | Some title_text =>
             let title := lower_or_empty title_text in
             if existsb (fun keyword => contains keyword title) ["dcs"; "digital combat simulator"]
             then "DCS" else "DCS"
         | None => "DCS"
         end in
  if negb (validate_platform platform) then "DCS" else platform.

(* ================================================================== *)
(** * Properties *)

(* ------------------------------------------------------------------ *)
(** ** Substring containment *)

Lemma prefixb_spec (p s : string) : prefixb p s = true <-> exists b, s = p ++ b.
Proof.
  revert s; induction p as [|c p IH]; intros s; simpl.
  - split; [intros _; exists s; reflexivity | intros _; reflexivity].
  - destruct s as [|c' s']; simpl.
    + split; [discriminate | intros [b Hb]; discriminate].
    + rewrite andb_true_iff, IH. split.
      * intros [Hc [b Hb]]. apply Ascii.eqb_eq in Hc. subst. exists b. reflexivity.
      * intros [b Hb]. injection Hb as -> ->. split; [apply Ascii.eqb_refl | eauto].
Qed.

Lemma contains_spec (p s : string) : contains p s = true <-> exists a b, s = a ++ p ++ b.
Proof.
  induction s as [|c s IH]; simpl.
  - rewrite prefixb_spec. split.
    + intros [b Hb]. exists "", b. exact Hb.
    + intros [a [b Hab]]. destruct a; [exists b; exact Hab | discriminate].
  - rewrite orb_true_iff, prefixb_spec, IH. split.
    + intros [[b Hb] | [a [b Hab]]].
      * exists "", b. exact Hb.
      * exists (String c a), b. rewrite Hab. reflexivity.
    + intros [a [b Hab]]. destruct a as [|c' a]; simpl in Hab.
      * left. exists b. exact Hab.
      * right. injection Hab as -> ->. eauto.
Qed.

(* ------------------------------------------------------------------ *)
(** ** Identity resolver *)

(** Every fragment of the set is a substring of the normalized label. *)
Definition fragment_match (fragments : list string) (norm : string) : Prop :=
  Forall (fun fragment => exists a b, norm = a ++ fragment ++ b) fragments.

Lemma all_fragments_in_spec fragments norm :
  all_fragments_in fragments norm = true <-> fragment_match fragments norm.
Proof.
  unfold all_fragments_in, fragment_match.
  rewrite forallb_forall, Forall_forall.
  split; intros H f Hf; [apply contains_spec | apply contains_spec]; apply H;
    [apply list_elem_of_In | apply list_elem_of_In]; assumption.
Qed.

Lemma first_full_match_none tbl norm :
  first_full_match tbl norm = None <-> Forall (fun e => ~ fragment_match (snd e) norm) tbl.
Proof.
  induction tbl as [|[n fs] tbl IH]; simpl.
  - split; [constructor | reflexivity].
  - rewrite Forall_cons. simpl. rewrite <- all_fragments_in_spec.
    destruct (all_fragments_in fs norm); split.
    + discriminate.
    + intros [H _]. congruence.
    + intros H. split; [discriminate | apply IH, H].
    + intros [_ H]. apply IH, H.
Qed.

Lemma first_full_match_some tbl norm nickname :
  first_full_match tbl norm = Some nickname <->
  exists pre fragments post,
    tbl = (pre ++ (nickname, fragments) :: post)%list
    /\ fragment_match fragments norm
    /\ Forall (fun e => ~ fragment_match (snd e) norm) pre.
Proof.
  induction tbl as [|[n fs] tbl IH]; simpl.
  - split; [discriminate |].
    intros [pre [fr [post [H _]]]]. destruct pre; discriminate.
  - case_eq (all_fragments_in fs norm); intros Hm.
    + split.
      * intros Heq. injection Heq as <-. exists [], fs, tbl.
        split; [reflexivity | split; [apply all_fragments_in_spec, Hm | constructor]].
      * intros [pre [fr [post [Heq [Hfr Hpre]]]]].
        destruct pre as [|[n' fs'] pre]; simpl in Heq; injection Heq as Hn Hf Ht.
        -- congruence.
        -- subst. rewrite Forall_cons in Hpre. destruct Hpre as [Hno _].
           exfalso. apply Hno, all_fragments_in_spec, Hm.
    + rewrite IH. split.
      * intros [pre [fr [post [Heq [Hfr Hpre]]]]].
        exists ((n, fs) :: pre), fr, post. subst. split; [reflexivity |].
        split; [exact Hfr |]. constructor; [| exact Hpre].
        simpl. rewrite <- all_fragments_in_spec. congruence.
      * intros [pre [fr [post [Heq [Hfr Hpre]]]]].
        destruct pre as [|[n' fs'] pre]; simpl in Heq; injection Heq as Hn Hf Ht.
        -- subst. apply all_fragments_in_spec in Hfr. congruence.
        -- subst. rewrite Forall_cons in Hpre. destruct Hpre as [_ Hpre].
           exists pre, fr, post. split; [reflexivity | split; assumption].
Qed.

(** Claim C4.  [resolve_fuzzy_nickname] returns the first identity, in the
    table's insertion order, all of whose fragments are substrings of the
    normalized label ([normalize_name]: non-word characters removed, then
    lowercased); when no identity's fragment set is fully contained it
    returns the normalized label.  Being a Rocq function of (label, table),
    it is total and deterministic. *)
Theorem resolve_fuzzy_nickname_first_match (raw_name : string) (tbl : alias_table) (id : string) :
  resolve_fuzzy_nickname raw_name tbl = id <->
  (exists pre fragments post,
      tbl = (pre ++ (id, fragments) :: post)%list
      /\ fragment_match fragments (normalize_name raw_name)
      /\ Forall (fun e => ~ fragment_match (snd e) (normalize_name raw_name)) pre)
  \/ (Forall (fun e => ~ fragment_match (snd e) (normalize_name raw_name)) tbl
      /\ id = normalize_name raw_name).
Proof.
  unfold resolve_fuzzy_nickname. split.
  - case_eq (first_full_match tbl (normalize_name raw_name)).
    + intros n Hn <-. left. apply first_full_match_some, Hn.
    + intros Hn <-. right. split; [apply first_full_match_none, Hn | reflexivity].
  - intros [H | [H ->]].
    + apply first_full_match_some in H. rewrite H. reflexivity.
    + apply first_full_match_none in H. rewrite H. reflexivity.
Qed.

(* ------------------------------------------------------------------ *)
(** ** Combatant classifier *)

Definition static_armor : string := "Static Armor RED-B-7-1".

Lemma aircraft_allowed_tank : aircraft_allowed "Tank" = true.
Proof. reflexivity. Qed.

(** Claim C2 (code bug).  With no squadron roster and the label not a
    known player, [is_player_client "Static Armor RED-B-7-1" "Tank" group]
    ACCEPTS the label for every group, although [backend/test_filter.py]
    runs this very case and expects "Static Armor* -> AI": ["tank"] is a
    substring of the allow-listed ["DCS: A-10C II Tank Killer"], and
    without a roster every pilot of an allow-listed aircraft is accepted. *)
Theorem is_player_client_static_armor_tank (cfg : config) (group : string) :
  squadron_callsigns cfg = [] ->
  is_known_player cfg static_armor = false ->
  is_player_client cfg static_armor "Tank" group = true.
Proof.
  intros Hroster Hknown. unfold is_player_client.
  rewrite Hknown, aircraft_allowed_tank, Hroster. reflexivity.
Qed.

Lemma is_player_client_static_armor_tank_witness :
  squadron_callsigns no_config = [] /\ is_known_player no_config static_armor = false
  /\ is_player_client no_config static_armor "Tank" "Ground-1" = true.
Proof.
  split; [reflexivity | split; [reflexivity |]].
  apply (is_player_client_static_armor_tank no_config "Ground-1"); reflexivity.
Defined.

(** Claim C8 (as amended).  The classifier never reads its [group]
    argument: its verdict is the same for every group label, AI-like or
    not; there is no group rule. *)
Theorem is_player_client_group_irrelevant (cfg : config) (pilot_name aircraft_name g1 g2 : string) :
  is_player_client cfg pilot_name aircraft_name g1 = is_player_client cfg pilot_name aircraft_name g2.
Proof. reflexivity. Qed.

(** Claim C8, refuted: a pilot that is not a known player, in a group
    labelled with the AI tokens "Enemy", "Hostile" and "Bot", is accepted
    when no roster is configured and the aircraft is allow-listed. *)
Lemma is_player_client_ai_group_counterexample :
  let group := "Enemy Hostile Bot Flight" in
  is_known_player no_config "Viper 1-1" = false
  /\ contains "enemy" (lower group) = true
  /\ contains "hostile" (lower group) = true
  /\ contains "bot" (lower group) = true
  /\ is_player_client no_config "Viper 1-1" "F-16C" group = true.
Proof. vm_compute. repeat split. Qed.

(* ------------------------------------------------------------------ *)
(** ** Flight-time estimator *)

Definition seeded_record : mission := default_mission "2024-05-01" "Op Test" 2700 "DCS".

(** Claim C3, evaluated at its input: for the stationary trace
    [[(0,0,t=0); (0,0,t=1000)]] the estimator credits the full 1000
    seconds (16 minutes), not about 900.  The first stationary pair only
    opens the stationary run ([stationary_start = last_position['time']])
    and its time is always added; the 900-second check sits in the [elif]
    and is never applied to that pair. *)
Theorem flight_time_stationary_trace_full :
  Qeq_bool (total_flight_time stationary_trace) 1000 = true
  /\ minutes_of_seconds (total_flight_time stationary_trace) = 16%Z
  /\ calculate_actual_flight_hours {[ "pilot" := seeded_record ]} {[ "pilot" := stationary_trace ]}
       !! "pilot" = Some (set_field F_flight 16 seeded_record).
Proof. split; [reflexivity | split; [reflexivity | reflexivity]]. Qed.

(** One step touches the entry of its own key only. *)
Lemma flight_hours_step_other (pm : gmap string mission) (k p : string) (ps : list pos) :
  k <> p -> flight_hours_step pm (k, ps) !! p = pm !! p.
Proof.
  intros Hne. simpl. destruct (pm !! k); [| reflexivity].
  destruct ps; [reflexivity |]. rewrite lookup_insert_ne; [reflexivity | exact Hne].
Qed.

Lemma flight_hours_step_same (pm1 pm2 : gmap string mission) (p : string) (ps : list pos) :
  pm1 !! p = pm2 !! p -> flight_hours_step pm1 (p, ps) !! p = flight_hours_step pm2 (p, ps) !! p.
Proof.
  intros Heq. unfold flight_hours_step. rewrite Heq.
  destruct (pm2 !! p) eqn:E; [| congruence].
  destruct ps; [congruence |]. rewrite !lookup_insert_eq. reflexivity.
Qed.

Lemma fold_flight_hours_absent (l : list (string * list pos)) (pm : gmap string mission) (p : string) :
  (forall ps, (p, ps) ∉ l) -> fold_left flight_hours_step l pm !! p = pm !! p.
Proof.
  revert pm; induction l as [|[k ps] l IH]; intros pm Hnot; simpl; [reflexivity |].
  rewrite IH.
  - apply flight_hours_step_other. intros ->. apply (Hnot ps). left.
  - intros ps' Hin. apply (Hnot ps'). right. exact Hin.
Qed.

Lemma fold_flight_hours_present (l : list (string * list pos)) (pm : gmap string mission)
    (p : string) (ps : list pos) :
  NoDup l.*1 -> (p, ps) ∈ l ->
  fold_left flight_hours_step l pm !! p = flight_hours_step pm (p, ps) !! p.
Proof.
  revert pm; induction l as [|[k qs] l IH]; intros pm Hnd Hin; simpl.
  - apply list_elem_of_In in Hin. destruct Hin.
  - simpl in Hnd. apply NoDup_cons in Hnd. destruct Hnd as [Hk Hnd].
    apply elem_of_cons in Hin. destruct Hin as [Heq | Hin].
    + injection Heq as <- <-. apply fold_flight_hours_absent.
      intros ps' Hin'. apply Hk. apply list_elem_of_fmap. exists (p, ps'). split; [reflexivity | exact Hin'].
    + assert (k <> p) as Hne.
      { intros ->. apply Hk. apply list_elem_of_fmap. exists (p, ps). split; [reflexivity | exact Hin]. }
      rewrite (IH _ Hnd Hin). apply flight_hours_step_same. apply flight_hours_step_other, Hne.
Qed.

Lemma calculate_lookup (pm : gmap string mission) (pp : gmap string (list pos)) (p : string) :
  calculate_actual_flight_hours pm pp !! p =
  match pp !! p with
  | None => pm !! p
  | Some ps => flight_hours_step pm (p, ps) !! p
  end.
Proof.
  unfold calculate_actual_flight_hours. case_eq (pp !! p).
  - intros ps Hps. apply fold_flight_hours_present.
    + apply NoDup_fst_map_to_list.
    + apply elem_of_map_to_list, Hps.
  - intros Hnone. apply fold_flight_hours_absent.
    intros ps Hin. apply elem_of_map_to_list in Hin. congruence.
Qed.






(* ------------------------------------------------------------------ *)
(** ** Finalizer *)

Definition field_eqb (f g : field) : bool :=
  match f, g with
  | F_aa, F_aa | F_ag, F_ag | F_frat, F_frat | F_rtb, F_rtb | F_kia, F_kia
  | F_ejections, F_ejections | F_deaths, F_deaths | F_flight, F_flight => true
  | _, _ => false
  end.

Lemma get_set_field (f g : field) (v : Z) (r : mission) :
  get_field f (set_field g v r) = if field_eqb f g then v else get_field f r.
Proof. destruct f, g; reflexivity. Qed.

Lemma get_clamp_same (f : field) (r : mission) :
  (0 <= get_field f (clamp_field r f) <= 10000)%Z.
Proof.
  unfold clamp_field, validate_numeric_value.
  case_eq ((0 <=? get_field f r)%Z && (get_field f r <=? 10000)%Z); intros H.
  - apply andb_true_iff in H. destruct H as [H1 H2]. apply Z.leb_le in H1, H2. lia.
  - rewrite get_set_field. destruct f; simpl; lia.
Qed.

Lemma get_clamp_other (f g : field) (r : mission) :
  field_eqb f g = false -> get_field f (clamp_field r g) = get_field f r.
Proof.
  intros Hne. unfold clamp_field.
  destruct (validate_numeric_value (get_field g r)); [reflexivity |].
  rewrite get_set_field, Hne. reflexivity.
Qed.

Lemma clamped_bounds (d : mission) (f : field) :
  f <> F_kia -> (0 <= get_field f (fold_left clamp_field numeric_fields d) <= 10000)%Z.
Proof.
  intros Hf. unfold numeric_fields. simpl.
  destruct f; try congruence;
    repeat (rewrite get_clamp_other by reflexivity); apply get_clamp_same.
Qed.

Lemma format_ratio_has_dot (a b : Z) : contains "." (format_ratio a b) = true.
Proof.
  apply contains_spec. unfold format_ratio.
  eexists. eexists. reflexivity.
Qed.

Lemma format_ratio_not_na (a b : Z) : format_ratio a b <> "N/A".
Proof.
  intros H. pose proof (format_ratio_has_dot a b) as Hd. rewrite H in Hd. discriminate.
Qed.

Lemma format_ratio_not_inf (a b : Z) : format_ratio a b <> INFINITY_SIGN.
Proof.
  intros H. pose proof (format_ratio_has_dot a b) as Hd. rewrite H in Hd. discriminate.
Qed.

Lemma finalize_one_spec (d r : mission) :
  finalize_one d = Some r ->
  total_kills r = (aa_kills r + ag_kills r)%Z
  /\ (0 <= aa_kills r)%Z /\ (0 <= ag_kills r)%Z /\ (0 <= deaths r)%Z
  /\ kd_ratio r =
       (if (deaths r =? 0)%Z then (if (0 <? total_kills r)%Z then INFINITY_SIGN else "N/A")
        else if (0 <? deaths r)%Z then format_ratio (total_kills r) (deaths r) else "N/A").
Proof.
  unfold finalize_one. set (d1 := fold_left clamp_field numeric_fields d).
  pose proof (clamped_bounds d F_aa ltac:(discriminate)) as Haa.
  pose proof (clamped_bounds d F_ag ltac:(discriminate)) as Hag.
  pose proof (clamped_bounds d F_deaths ltac:(discriminate)) as Hde.
  fold d1 in Haa, Hag, Hde. simpl in Haa, Hag, Hde.
  destruct (_ || _); [| discriminate].
  intros H. injection H as <-. simpl. repeat split; lia.
Qed.

(** Claim C6.  Every record of the finalized output has
    [total_kills = aa_kills + ag_kills] (friendly-fire kills not counted),
    and [kd_ratio] is ["N/A"] exactly when [total_kills = 0] and
    [deaths = 0], ["∞"] exactly when [total_kills > 0] and [deaths = 0],
    and otherwise ([deaths > 0]) the formatted ratio
    [total_kills / deaths]. *)
Theorem finalize_pilot_data_derived_fields (pm : gmap string mission) (nickname : string) (r : mission) :
  finalize_pilot_data pm !! nickname = Some r ->
  total_kills r = (aa_kills r + ag_kills r)%Z
  /\ (kd_ratio r = "N/A" <-> total_kills r = 0%Z /\ deaths r = 0%Z)
  /\ (kd_ratio r = INFINITY_SIGN <-> (0 < total_kills r)%Z /\ deaths r = 0%Z)
  /\ (deaths r <> 0%Z -> (0 < deaths r)%Z /\ kd_ratio r = format_ratio (total_kills r) (deaths r)).
Proof.
  unfold finalize_pilot_data. rewrite lookup_omap.
  destruct (pm !! nickname) as [d|]; simpl; [| discriminate].
  intros Hd. apply finalize_one_spec in Hd.
  destruct Hd as [Htk [Haa [Hag [Hde Hkd]]]].
  assert (0 <= total_kills r)%Z as Htk0 by lia.
  rewrite Hkd. clear Hkd.
  destruct (Z.eqb_spec (deaths r) 0) as [Hd0 | Hd0].
  - destruct (Z.ltb_spec 0 (total_kills r)) as [Hp | Hp].
    + repeat split; try lia; try discriminate; intros [H1 H2]; lia.
    + repeat split; try lia; try discriminate; intros [H1 H2]; lia.
  - assert (0 < deaths r)%Z as Hpos by lia.
    destruct (Z.ltb_spec 0 (deaths r)) as [_ | Hn]; [| lia].
    repeat split; try lia;
      match goal with
      | Heq : format_ratio _ _ = _ |- _ =>
          exfalso; first [apply (format_ratio_not_na _ _ Heq) | apply (format_ratio_not_inf _ _ Heq)]
      end.
Qed.

Definition sample_record : mission :=
  set_field F_deaths 2 (set_field F_frat 1 (set_field F_ag 1 (set_field F_aa 4 seeded_record))).

Definition sample_missions : gmap string mission := {[ "viper" := sample_record ]}.

Lemma finalize_pilot_data_derived_fields_witness :
  exists r, finalize_pilot_data sample_missions !! "viper" = Some r
  /\ total_kills r = 5%Z /\ kd_ratio r = "2.50"
  /\ total_kills r = (aa_kills r + ag_kills r)%Z.
Proof.
  eexists. split; [reflexivity |]. split; [reflexivity |]. split; [reflexivity |].
  apply (finalize_pilot_data_derived_fields sample_missions "viper"). reflexivity.
Defined.

(* ------------------------------------------------------------------ *)
(** ** Mission deduplicator *)

Lemma dict_set_fresh (k : string) (v : ledger_entry) (l : ledger) :
  existsb (fun kv => String.eqb (fst kv) k) l = false -> dict_set k v l = (l ++ [(k, v)])%list.
Proof.
  induction l as [|[k' v'] l IH]; simpl; [reflexivity |].
  intros H. apply orb_false_iff in H. destruct H as [H1 H2].
  rewrite String.eqb_sym, H1. rewrite IH by exact H2. reflexivity.
Qed.

Lemma insert_by_stamp_app_last (y x : string * ledger_entry) (L : ledger) :
  (processed_at (snd y) <= processed_at (snd x))%Z ->
  insert_by_stamp y (L ++ [x])%list = (insert_by_stamp y L ++ [x])%list.
Proof.
  intros Hyx. induction L as [|z L IH]; simpl.
  - apply Z.leb_le in Hyx. rewrite Hyx. reflexivity.
  - destruct (processed_at (snd y) <=? processed_at (snd z))%Z; [reflexivity |].
    rewrite IH. reflexivity.
Qed.

Lemma sort_by_stamp_app_last (x : string * ledger_entry) (l : ledger) :
  (forall e, e ∈ l -> (processed_at (snd e) <= processed_at (snd x))%Z) ->
  sort_by_stamp (l ++ [x])%list = (sort_by_stamp l ++ [x])%list.
Proof.
  induction l as [|y l IH]; intros Hle; simpl; [reflexivity |].
  rewrite IH.
  - apply insert_by_stamp_app_last, Hle. left.
  - intros e He. apply Hle. right. exact He.
Qed.

Lemma length_insert_by_stamp (x : string * ledger_entry) (l : ledger) :
  length (insert_by_stamp x l) = S (length l).
Proof.
  induction l as [|y l IH]; simpl; [reflexivity |].
  destruct (_ <=? _)%Z; simpl; [reflexivity | rewrite IH; reflexivity].
Qed.

Lemma length_sort_by_stamp (l : ledger) : length (sort_by_stamp l) = length l.
Proof.
  induction l as [|y l IH]; simpl; [reflexivity |].
  rewrite length_insert_by_stamp, IH. reflexivity.
Qed.

Lemma existsb_key_in (k : string) (v : ledger_entry) (l : ledger) :
  (k, v) ∈ l -> existsb (fun kv => String.eqb (fst kv) k) l = true.
Proof.
  intros Hin. apply existsb_exists. exists (k, v).
  split; [apply list_elem_of_In, Hin | apply String.eqb_refl].
Qed.

(** A mission marked at a clock reading no earlier than every stamp of
    the ledger is found by the next check, also when the ledger is cut
    back to its 100 newest entries. *)
Lemma mark_then_processed (l : ledger) (now : Z) (mission_name mission_date : string) :
  is_mission_already_processed l mission_name mission_date = false ->
  (forall e, e ∈ l -> (processed_at (snd e) <= now)%Z) ->
  is_mission_already_processed (mark_mission_as_processed l now mission_name mission_date)
    mission_name mission_date = true.
Proof.
  intros Hnew Hle. unfold is_mission_already_processed in *.
  unfold mark_mission_as_processed. rewrite dict_set_fresh by exact Hnew.
  set (x := (mission_key mission_name mission_date, mkEntry mission_name mission_date now)).
  destruct (100 <? length (l ++ [x]))%nat.
  - rewrite sort_by_stamp_app_last by exact Hle.
    apply (existsb_key_in _ (mkEntry mission_name mission_date now)).
    rewrite length_app, length_sort_by_stamp. simpl.
    rewrite drop_app_le by (rewrite length_sort_by_stamp; lia).
    apply elem_of_app. right. left.
  - apply (existsb_key_in _ (mkEntry mission_name mission_date now)).
    apply elem_of_app. right. left.
Qed.

Lemma parse_xml_ledger (cfg : config) (l : ledger) (now : Z) (path : string) (doc : option document) :
  ends_with_xml path = true ->
  snd (parse_xml cfg l now true path doc) = snd (parse_tacview_xml cfg l now doc).
Proof.
  intros Hp. unfold parse_xml. rewrite Hp. simpl.
  destruct (parse_tacview_xml cfg l now doc) as [res l']. simpl.
  destruct res; [reflexivity |]. repeat case_match; reflexivity.
Qed.

Lemma parse_tacview_xml_processed (cfg : config) (l : ledger) (now : Z) (d : document) :
  is_mission_already_processed l (doc_mission_name d) (doc_mission_date d) = true ->
  parse_tacview_xml cfg l now (Some d) = (DuplicateMarker (doc_mission_name d) (doc_mission_date d), l).
Proof. intros H. unfold parse_tacview_xml. rewrite H. reflexivity. Qed.

(** Claim C5 (as amended).  On a document with an [Events] section, the
    first run marks its mission (at a clock reading no earlier than the
    ledger's stamps); a later run on any document [d'] whose mission name
    and date give the same key is the duplicate short-circuit: success
    with the duplicate marker, 0 pilots, empty pilot data, and the ledger
    untouched; no accumulator is built on that path.  The check is
    membership of the key [mission_name ++ "_" ++ mission_date], so this
    covers the same (name, date) pair and every other pair with the same
    concatenation. *)
Theorem parse_xml_second_run_duplicate (cfg : config) (l : ledger) (now1 now2 : Z)
    (path path' : string) (d d' : document) (evs : list event) :
  doc_events d = Some evs ->
  ends_with_xml path = true ->
  ends_with_xml path' = true ->
  (forall e, e ∈ l -> (processed_at (snd e) <= now1)%Z) ->
  mission_key (doc_mission_name d') (doc_mission_date d')
    = mission_key (doc_mission_name d) (doc_mission_date d) ->
  let l1 := snd (parse_xml cfg l now1 true path (Some d)) in
  parse_tacview_xml cfg l1 now2 (Some d') = (DuplicateMarker (doc_mission_name d') (doc_mission_date d'), l1)
  /\ parse_xml cfg l1 now2 true path' (Some d') = (Response true true 0 ∅, l1).
Proof.
  intros Hev Hp Hp' Hle Hkey l1.
  assert (is_mission_already_processed l1 (doc_mission_name d) (doc_mission_date d) = true) as Hdup.
  { subst l1. rewrite parse_xml_ledger by exact Hp. unfold parse_tacview_xml.
    case_eq (is_mission_already_processed l (doc_mission_name d) (doc_mission_date d));
      intros Hl; [exact Hl |].
    rewrite Hev. simpl. apply mark_then_processed; assumption. }
  assert (is_mission_already_processed l1 (doc_mission_name d') (doc_mission_date d') = true) as Hdup'.
  { unfold is_mission_already_processed in *. rewrite Hkey. exact Hdup. }
  split.
  - apply parse_tacview_xml_processed, Hdup'.
  - unfold parse_xml. rewrite Hp', parse_tacview_xml_processed by exact Hdup'.
    reflexivity.
Qed.

Definition sample_primary : obj :=
  mkObj (Some "Viper 1-1") (Some "F-16C") (Some "Uzi") (Some "Aircraft") (Some "Blue").

Definition sample_landing : event :=
  mkEvent (Some "HasLanded") (Some sample_primary) None None None.

Definition doc_op_red : document :=
  mkDocument "Op_Red" "2024-01-01" 2700 "DCS" (Some [sample_landing]).

Definition doc_op : document :=
  mkDocument "Op" "Red_2024-01-01" 2700 "DCS" (Some [sample_landing]).

Lemma parse_xml_second_run_duplicate_witness :
  ends_with_xml "op.xml" = true
  /\ parse_xml no_config (snd (parse_xml no_config [] 1 true "op_red.xml" (Some doc_op_red)))
       2 true "op.xml" (Some doc_op)
     = (Response true true 0 ∅, snd (parse_xml no_config [] 1 true "op_red.xml" (Some doc_op_red))).
Proof.
  split; [reflexivity |].
  refine (proj2 (parse_xml_second_run_duplicate no_config [] 1 2 "op_red.xml" "op.xml"
                   doc_op_red doc_op [sample_landing] eq_refl eq_refl eq_refl _ eq_refl)).
  intros e He. apply list_elem_of_In in He. destruct He.
Defined.

(** Claim C5, refuted on "the literal pair is the fingerprint": after
    ("Op_Red", "2024-01-01") is processed, the different pair
    ("Op", "Red_2024-01-01") is reported as a duplicate, because both give
    the key "Op_Red_2024-01-01". *)
Lemma mission_key_collision_counterexample :
  (doc_mission_name doc_op_red, doc_mission_date doc_op_red)
    <> (doc_mission_name doc_op, doc_mission_date doc_op)
  /\ fst (parse_xml no_config [] 1 true "op_red.xml" (Some doc_op_red)) <> Response true true 0 ∅
  /\ fst (parse_xml no_config (snd (parse_xml no_config [] 1 true "op_red.xml" (Some doc_op_red)))
            2 true "op.xml" (Some doc_op))
     = Response true true 0 ∅.
Proof.
  split; [discriminate |]. split.
  - vm_compute. discriminate.
  - vm_compute. reflexivity.
Qed.

(* ------------------------------------------------------------------ *)
(** ** Documents without events *)

Lemma finalize_after_no_events :
  finalize_pilot_data (calculate_actual_flight_hours (pilot_missions empty_state)
                         (pilot_positions empty_state)) = ∅.
Proof. reflexivity. Qed.

(** Claim C9 (as amended).  For a document whose [Events] section has no
    events and that is not yet in the ledger, [parse_tacview_xml] returns
    the empty pilot mapping (and marks the mission processed), but the
    entry point [parse_xml] turns the empty mapping into an [APIError]
    [DATA_PROCESSING_ERROR] with status 400 ("No pilot data found in
    XML"). *)
Theorem parse_zero_events (cfg : config) (l : ledger) (now : Z) (path : string) (d : document) :
  doc_events d = Some [] ->
  ends_with_xml path = true ->
  is_mission_already_processed l (doc_mission_name d) (doc_mission_date d) = false ->
  parse_tacview_xml cfg l now (Some d)
    = (PilotData ∅, mark_mission_as_processed l now (doc_mission_name d) (doc_mission_date d))
  /\ parse_xml cfg l now true path (Some d)
    = (APIError "DATA_PROCESSING_ERROR" 400,
       mark_mission_as_processed l now (doc_mission_name d) (doc_mission_date d)).
Proof.
  intros Hev Hp Hnew.
  assert (parse_tacview_xml cfg l now (Some d)
    = (PilotData ∅, mark_mission_as_processed l now (doc_mission_name d) (doc_mission_date d))) as Ht.
  { unfold parse_tacview_xml. rewrite Hnew, Hev. simpl process_events.
    rewrite finalize_after_no_events. reflexivity. }
  split; [exact Ht |].
  unfold parse_xml. rewrite Hp, Ht. reflexivity.
Qed.

Definition doc_empty : document := mkDocument "Quiet Patrol" "2024-06-01" 1800 "DCS" (Some []).

Lemma parse_zero_events_witness :
  fst (parse_xml no_config [] 5 true "quiet.xml" (Some doc_empty)) = APIError "DATA_PROCESSING_ERROR" 400.
Proof.
  rewrite (proj2 (parse_zero_events no_config [] 5 "quiet.xml" doc_empty eq_refl eq_refl eq_refl)).
  reflexivity.
Defined.

(** Claim C9, refuted: the pipeline entry point raises on a document with
    an empty [Events] section instead of returning an empty mapping. *)
Lemma parse_zero_events_counterexample :
  exists code status,
    fst (parse_xml no_config [] 5 true "quiet.xml" (Some doc_empty)) = APIError code status.
Proof. vm_compute. eauto. Qed.

(* ------------------------------------------------------------------ *)
(** ** Kill attribution *)

Definition kills (r : mission) : Z * Z * Z := (aa_kills r, ag_kills r, frat_kills r).

(** The kill counters of pilot [k] ([pilot_missions[k]], default if absent). *)
Definition kills_at (dflt : mission) (st : state) (k : string) : Z * Z * Z :=
  kills (get_or dflt (pilot_missions st !! k)).

Lemma upd_mission_kills (dflt : mission) (n : string) (f : mission -> mission) (st : state) (k : string) :
  (forall r, kills (f r) = kills r) ->
  kills_at dflt (upd_mission dflt n f st) k = kills_at dflt st k.
Proof.
  intros Hf. unfold kills_at, upd_mission, upd. simpl.
  destruct (decide (n = k)) as [-> | Hne].
  - rewrite lookup_insert_eq. simpl. apply Hf.
  - rewrite lookup_insert_ne by exact Hne. reflexivity.
Qed.

Lemma record_position_missions (ev : event) (n : string) (st st' : state) :
  record_position ev n st = inl st' \/ record_position ev n st = inr st' ->
  pilot_missions st' = pilot_missions st.
Proof.
  unfold record_position. repeat case_match; intros [Hr | Hr]; try discriminate;
    injection Hr as <-; reflexivity.
Qed.

Lemma is_player_client_rejects (cfg : config) (a ac g : string) :
  is_known_player cfg a = false -> aircraft_allowed ac = false ->
  is_player_client cfg a ac g = false.
Proof.
  intros Hk Ha. unfold is_player_client. rewrite Hk, Ha.
  destruct (_ || _); reflexivity.
Qed.


(** The kill attribution of one destroyed-with-secondary event depends on
    the attacker check [is_player_client attacker aircraft group] made with
    the labels [process_event] holds: when it fails, no kill counter of any
    pilot changes. *)
Lemma process_event_no_credit (cfg : config) (dflt : mission) (prim so : obj)
    (loc : option location) (t : option string) (st : state) (k : string) :
  is_player_client cfg (strip (findtext (o_pilot so) "")) (sanitized_aircraft prim)
    (findtext (o_group prim) "") = false ->
  kills_at dflt (process_event cfg dflt (mkEvent (Some "HasBeenDestroyed") (Some prim) (Some so) loc t) st) k
  = kills_at dflt st k.
Proof.
  intros Hrej. unfold process_event. cbn [e_primary].
  destruct (_ || _); [reflexivity |].
  destruct (negb _); [reflexivity |].
  destruct (negb _); [reflexivity |].
  destruct (negb _); [reflexivity |].
  set (nick := resolve_fuzzy_nickname _ _).
  set (st1 := upd_mission dflt nick (set_aircraft _) (upd_mission dflt nick (add_nickname _) st)).
  assert (kills_at dflt st1 k = kills_at dflt st k) as H1.
  { subst st1. rewrite upd_mission_kills by (intros r; reflexivity).
    rewrite upd_mission_kills by (intros r; unfold add_nickname; destruct (existsb _ _); reflexivity).
    reflexivity. }
  destruct (record_position _ _ st1) as [st2|st2] eqn:E.
  { unfold kills_at in *. rewrite (record_position_missions _ _ _ _ (or_introl E)). exact H1. }
  assert (kills_at dflt st2 k = kills_at dflt st1 k) as H2.
  { unfold kills_at. rewrite (record_position_missions _ _ _ _ (or_intror E)). reflexivity. }
  unfold event_effects. cbn [e_action e_secondary]. rewrite Hrej, andb_false_r. congruence.
Qed.

(** An event whose primary object carries no pilot label is dropped as a
    whole: the early [return] also skips the kill attribution. *)
Lemma process_event_unlabelled_primary (cfg : config) (dflt : mission) (ev : event) (prim : obj) (st : state) :
  e_primary ev = Some prim -> o_pilot prim = None -> process_event cfg dflt ev st = st.
Proof.
  intros Hp Hn. unfold process_event. rewrite Hp, Hn. reflexivity.
Qed.

Definition viper_config : config := mkConfig [mkProfile "Viper 1-1" []] [] DEFAULT_FRAGMENTS.

Definition alice_config : config := mkConfig [mkProfile "Alice" []] [] DEFAULT_FRAGMENTS.

Definition op_default : mission := default_mission "2024-01-01" "Op" 3600 "DCS".

Definition viper_attacker : obj :=
  mkObj (Some "Viper 1-1") (Some "F-16C") (Some "Red 1") (Some "Air+FixedWing") (Some "Red").

(** A tank, as Tacview records it: no [<Pilot>]. *)
Definition tank_victim : obj :=
  mkObj None (Some "T-72B") (Some "Armor 1") (Some "Tank") (Some "Blue").

Definition tank_kill : event :=
  mkEvent (Some "HasBeenDestroyed") (Some tank_victim) (Some viper_attacker) None None.

Definition alice_in (ac : string) : obj :=
  mkObj (Some "Alice") (Some ac) (Some "Blue 1") (Some "Air+FixedWing") (Some "Blue").

(** Claim C1.  A destroyed event with a secondary whose pilot label is a
    combatant under any aircraft and group labels ("Viper 1-1", a known
    player) and a ground-type victim ("Tank") with no pilot label: the
    claim expects the attacker's [ag_kills] to grow by one, but
    [process_event] returns before the attribution and leaves the state
    unchanged, so no counter of the attacker moves. *)
Theorem process_event_unlabelled_victim_drops_kill :
  (forall ac g, is_player_client viper_config "Viper 1-1" ac g = true)
  /\ existsb (String.eqb (findtext (o_type tank_victim) "")) ground_types = true
  /\ process_event viper_config op_default tank_kill empty_state = empty_state
  /\ kills_at op_default (process_event viper_config op_default tank_kill empty_state)
       (resolve_fuzzy_nickname "Viper 1-1" (nickname_fragments viper_config)) = (0, 0, 0)%Z.
Proof.
  split; [intros ac g; reflexivity |].
  split; [reflexivity |].
  split; [reflexivity |].
  vm_compute. reflexivity.
Qed.

(** Claim C10.  In a destroyed-with-secondary event the attacker is
    classified with the victim's aircraft and group: the outcome does not
    depend on the secondary's own [<Name>] and [<Group>]; an attacker who
    is not a known player is never credited when the victim's aircraft is
    off the allow-list; and the same attacker in the same F-16C gets an air
    kill for a victim in an F-16C but nothing for a victim in a Tu-95. *)
Theorem process_event_attacker_judged_by_victim_aircraft (cfg : config) (dflt : mission)
    (prim so : obj) (nm gr : option string) (loc : option location) (t : option string) (st : state) :
  process_event cfg dflt (mkEvent (Some "HasBeenDestroyed") (Some prim) (Some so) loc t) st
  = process_event cfg dflt (mkEvent (Some "HasBeenDestroyed") (Some prim)
      (Some (mkObj (o_pilot so) nm gr (o_type so) (o_coalition so))) loc t) st
  /\ (is_known_player cfg (strip (findtext (o_pilot so) "")) = false ->
      aircraft_allowed (sanitized_aircraft prim) = false ->
      forall k, kills_at dflt (process_event cfg dflt
                  (mkEvent (Some "HasBeenDestroyed") (Some prim) (Some so) loc t) st) k
                = kills_at dflt st k)
  /\ kills_at op_default (process_event alice_config op_default
       (mkEvent (Some "HasBeenDestroyed") (Some (alice_in "F-16C")) (Some viper_attacker) None None)
       empty_state) "viper11" = (1, 0, 0)%Z
  /\ kills_at op_default (process_event alice_config op_default
       (mkEvent (Some "HasBeenDestroyed") (Some (alice_in "Tu-95")) (Some viper_attacker) None None)
       empty_state) "viper11" = (0, 0, 0)%Z.
Proof.
  split; [reflexivity |].
  split.
  - intros Hk Ha k. apply process_event_no_credit.
    apply is_player_client_rejects; assumption.
  - split; vm_compute; reflexivity.
Qed.

Lemma process_event_attacker_judged_by_victim_aircraft_witness :
  is_known_player alice_config (strip (findtext (o_pilot viper_attacker) "")) = false
  /\ aircraft_allowed (sanitized_aircraft (alice_in "Tu-95")) = false
  /\ kills_at op_default (process_event alice_config op_default
       (mkEvent (Some "HasBeenDestroyed") (Some (alice_in "Tu-95")) (Some viper_attacker) None None)
       empty_state) "viper11"
     = kills_at op_default empty_state "viper11".
Proof.
  split; [reflexivity |]. split; [reflexivity |].
  apply (proj1 (proj2 (process_event_attacker_judged_by_victim_aircraft alice_config op_default
    (alice_in "Tu-95") viper_attacker None None None None empty_state))); reflexivity.
Defined.

(* ------------------------------------------------------------------ *)
(** ** Strings as lists of characters *)

Abbreviation L := list_ascii_of_string.

Fixpoint drop_space (l : list ascii) : list ascii :=
  match l with
  | [] => []
  | c :: l' => if is_space c then drop_space l' else l
  end.

Definition head_ok (l : list ascii) : Prop :=
  match l with [] => True | c :: _ => is_space c = false end.

(** [str.strip] on the character list. *)
Definition strip_list (l : list ascii) : list ascii := rev (drop_space (rev (drop_space l))).

Definition starts_with_space (s : string) : bool :=
  match s with String c _ => is_space c | EmptyString => false end.

Definition ends_with_space (s : string) : bool := starts_with_space (rev_str s "").

Lemma L_inj (s t : string) : L s = L t -> s = t.
Proof.
  intros H. rewrite <- (string_of_list_ascii_of_string s), <- (string_of_list_ascii_of_string t).
  rewrite H. reflexivity.
Qed.

Lemma L_app (s t : string) : L (s ++ t) = (L s ++ L t)%list.
Proof. induction s as [|c s IH]; simpl; [reflexivity | rewrite IH; reflexivity]. Qed.

Lemma L_rev_str (s acc : string) : L (rev_str s acc) = (rev (L s) ++ L acc)%list.
Proof.
  revert acc; induction s as [|c s IH]; intros acc; simpl; [reflexivity |].
  rewrite IH. simpl. rewrite <- app_assoc. reflexivity.
Qed.

Lemma L_lstrip (s : string) : L (lstrip s) = drop_space (L s).
Proof. induction s as [|c s IH]; simpl; [reflexivity |]. destruct (is_space c); [exact IH | reflexivity]. Qed.

Lemma L_strip (s : string) : L (strip s) = strip_list (L s).
Proof.
  unfold strip, strip_list. rewrite L_rev_str, L_lstrip, L_rev_str, L_lstrip.
  simpl. rewrite !app_nil_r. reflexivity.
Qed.

Lemma L_filter (p : ascii -> bool) (s : string) : L (filter_chars p s) = List.filter p (L s).
Proof. induction s as [|c s IH]; simpl; [reflexivity |]. destruct (p c); simpl; rewrite IH; reflexivity. Qed.

Lemma L_substring0 (n : nat) (s : string) : L (substring 0 n s) = take n (L s).
Proof.
  revert n; induction s as [|c s IH]; intros [|n]; simpl; try reflexivity.
  rewrite IH. reflexivity.
Qed.

Lemma length_L (s : string) : String.length s = length (L s).
Proof. induction s as [|c s IH]; simpl; [reflexivity | rewrite IH; reflexivity]. Qed.

Lemma all_chars_L (p : ascii -> bool) (s : string) : all_chars p s = forallb p (L s).
Proof. induction s as [|c s IH]; simpl; [reflexivity | rewrite IH; reflexivity]. Qed.

Lemma drop_space_head (l : list ascii) : head_ok (drop_space l).
Proof.
  induction l as [|c l IH]; simpl; [exact I |].
  destruct (is_space c) eqn:E; [exact IH | exact E].
Qed.

Lemma drop_space_id (l : list ascii) : head_ok l -> drop_space l = l.
Proof. destruct l as [|c l]; simpl; [reflexivity |]. intros ->. reflexivity. Qed.

Lemma drop_space_suffix (l : list ascii) :
  exists a, l = (a ++ drop_space l)%list /\ forallb is_space a = true.
Proof.
  induction l as [|c l [a [Ha Hs]]]; simpl; [exists []; split; reflexivity |].
  destruct (is_space c) eqn:E.
  - exists (c :: a). simpl. rewrite E, Hs, <- Ha. split; reflexivity.
  - exists []. split; reflexivity.
Qed.

Lemma head_ok_app (u v : list ascii) : head_ok (u ++ v) -> head_ok u.
Proof. destruct u; simpl; [intros _; exact I | exact id]. Qed.

Lemma strip_list_head (l : list ascii) : head_ok (strip_list l).
Proof.
  unfold strip_list.
  destruct (drop_space_suffix (rev (drop_space l))) as [b [Hb _]].
  apply (head_ok_app _ (rev b)). rewrite <- rev_app_distr, <- Hb, rev_involutive.
  apply drop_space_head.
Qed.

Lemma strip_list_last (l : list ascii) : head_ok (rev (strip_list l)).
Proof. unfold strip_list. rewrite rev_involutive. apply drop_space_head. Qed.

Lemma strip_list_idem (l : list ascii) : strip_list (strip_list l) = strip_list l.
Proof.
  pose proof (strip_list_head l) as H1. pose proof (strip_list_last l) as H2.
  unfold strip_list at 1. rewrite (drop_space_id _ H1), (drop_space_id _ H2).
  apply rev_involutive.
Qed.

Lemma forallb_drop_space (p : ascii -> bool) (l : list ascii) :
  forallb p l = true -> forallb p (drop_space l) = true.
Proof.
  induction l as [|c l IH]; simpl; [reflexivity |].
  intros H. apply andb_true_iff in H as [H1 H2].
  destruct (is_space c); simpl; [apply IH, H2 | rewrite H1, H2; reflexivity].
Qed.

Lemma forallb_rev (p : ascii -> bool) (l : list ascii) : forallb p (rev l) = forallb p l.
Proof.
  induction l as [|c l IH]; simpl; [reflexivity |].
  rewrite forallb_app, IH. simpl. rewrite andb_true_r, andb_comm. reflexivity.
Qed.

Lemma forallb_strip_list (p : ascii -> bool) (l : list ascii) :
  forallb p l = true -> forallb p (strip_list l) = true.
Proof.
  intros H. unfold strip_list. rewrite forallb_rev.
  apply forallb_drop_space. rewrite forallb_rev. apply forallb_drop_space, H.
Qed.

Lemma length_drop_space (l : list ascii) : (length (drop_space l) <= length l)%nat.
Proof. induction l as [|c l IH]; simpl; [lia |]. destruct (is_space c); simpl; lia. Qed.

Lemma length_strip_list (l : list ascii) : (length (strip_list l) <= length l)%nat.
Proof.
  unfold strip_list. rewrite length_rev.
  pose proof (length_drop_space (rev (drop_space l))) as H1.
  rewrite length_rev in H1. pose proof (length_drop_space l). lia.
Qed.

Lemma drop_space_nonspace (l : list ascii) (c : ascii) :
  c ∈ l -> is_space c = false -> drop_space l <> [].
Proof.
  induction l as [|d l IH]; simpl; intros Hin Hc; [apply not_elem_of_nil in Hin; contradiction |].
  apply elem_of_cons in Hin as [-> | Hin].
  - rewrite Hc. discriminate.
  - destruct (is_space d); [apply IH; assumption | discriminate].
Qed.

Lemma strip_list_nonspace (l : list ascii) (c : ascii) :
  c ∈ l -> is_space c = false -> strip_list l <> [].
Proof.
  intros Hin Hc. unfold strip_list.
  destruct (drop_space_suffix l) as [a [Ha Hs]].
  intros Hnil.
  assert (drop_space (rev (drop_space l)) = []) as Hnil'.
  { rewrite <- (rev_involutive (drop_space (rev (drop_space l)))), Hnil. reflexivity. }
  revert Hnil'.
  assert (c ∈ drop_space l) as Hin'.
  { rewrite Ha in Hin. apply elem_of_app in Hin as [Hin | Hin]; [| exact Hin].
    exfalso. apply list_elem_of_In in Hin. rewrite forallb_forall in Hs.
    specialize (Hs c Hin). congruence. }
  apply (drop_space_nonspace _ c); [| exact Hc].
  apply list_elem_of_In. rewrite <- in_rev. apply list_elem_of_In, Hin'.
Qed.

Lemma forallb_filter_self (p : ascii -> bool) (l : list ascii) : forallb p (List.filter p l) = true.
Proof. induction l as [|c l IH]; simpl; [reflexivity |]. destruct (p c) eqn:E; simpl; [rewrite E, IH |]; auto. Qed.

Lemma filter_id (p : ascii -> bool) (l : list ascii) : forallb p l = true -> List.filter p l = l.
Proof.
  induction l as [|c l IH]; simpl; [reflexivity |].
  intros H. apply andb_true_iff in H as [H1 H2]. rewrite H1, IH by exact H2. reflexivity.
Qed.

Lemma forallb_take (p : ascii -> bool) (n : nat) (l : list ascii) :
  forallb p l = true -> forallb p (take n l) = true.
Proof.
  revert n; induction l as [|c l IH]; intros [|n]; simpl; try reflexivity.
  intros H. apply andb_true_iff in H as [H1 H2]. rewrite H1, IH by exact H2. reflexivity.
Qed.

Definition not_control (c : ascii) : bool := negb (control_char c).

Lemma L_sanitize (value : string) (n : nat) :
  L (sanitize_string value n)
  = if truthy value then strip_list (take n (List.filter not_control (L value))) else [].
Proof.
  unfold sanitize_string. destruct value as [|c v]; [reflexivity |]. cbn -[strip substring filter_chars L].
  rewrite L_strip, L_substring0, L_filter. reflexivity.
Qed.

Lemma starts_head (s : string) : head_ok (L s) -> starts_with_space s = false.
Proof. destruct s; simpl; [reflexivity | exact id]. Qed.

Lemma ends_head (s : string) : head_ok (rev (L s)) -> ends_with_space s = false.
Proof. intros H. apply starts_head. rewrite L_rev_str. simpl. rewrite app_nil_r. exact H. Qed.

Lemma sanitize_length (value : string) (n : nat) : (String.length (sanitize_string value n) <= n)%nat.
Proof.
  rewrite length_L, L_sanitize. destruct (truthy value); simpl; [| lia].
  etransitivity; [apply length_strip_list |]. rewrite length_take. lia.
Qed.

Lemma sanitize_no_control (value : string) (n : nat) :
  forallb not_control (L (sanitize_string value n)) = true.
Proof.
  rewrite L_sanitize. destruct (truthy value); [| reflexivity].
  apply forallb_strip_list, forallb_take, forallb_filter_self.
Qed.

Lemma sanitize_strip (value : string) (n : nat) :
  strip_list (L (sanitize_string value n)) = L (sanitize_string value n).
Proof.
  rewrite L_sanitize. destruct (truthy value); [apply strip_list_idem | reflexivity].
Qed.

Lemma sanitize_outer (value : string) (n : nat) :
  head_ok (L (sanitize_string value n)) /\ head_ok (rev (L (sanitize_string value n))).
Proof.
  rewrite L_sanitize. destruct (truthy value); [| split; exact I].
  split; [apply strip_list_head | apply strip_list_last].
Qed.

(* ------------------------------------------------------------------ *)
(** ** Character facts of [str.lower] and [\w] *)

Lemma lower_char_word (c : ascii) : is_word_char (lower_char c) = is_word_char c.
Proof. destruct c as [[] [] [] [] [] [] [] []]; vm_compute; reflexivity. Qed.

Lemma lower_char_idem (c : ascii) : lower_char (lower_char c) = lower_char c.
Proof. destruct c as [[] [] [] [] [] [] [] []]; vm_compute; reflexivity. Qed.

Lemma lower_char_word_class (c : ascii) :
  is_word_char c = true -> is_lower (lower_char c) || is_digit (lower_char c) || is_char 95 (lower_char c) = true.
Proof.
  intros H; destruct c as [[] [] [] [] [] [] [] []]; vm_compute in H |- *;
    first [reflexivity | discriminate H].
Qed.

Lemma lower_idem (s : string) : lower (lower s) = lower s.
Proof. induction s as [|c s IH]; simpl; [reflexivity | rewrite lower_char_idem, IH; reflexivity]. Qed.

Lemma filter_word_lower (s : string) :
  all_chars is_word_char s = true -> filter_chars is_word_char (lower s) = lower s.
Proof.
  induction s as [|c s IH]; simpl; [reflexivity |].
  intros H. apply andb_true_iff in H as [H1 H2].
  rewrite lower_char_word, H1, IH by exact H2. reflexivity.
Qed.

Lemma all_chars_filter (p : ascii -> bool) (s : string) : all_chars p (filter_chars p s) = true.
Proof. induction s as [|c s IH]; simpl; [reflexivity |]. destruct (p c) eqn:E; simpl; [rewrite E |]; auto. Qed.

Lemma all_chars_lower_class (s : string) :
  all_chars is_word_char s = true ->
  all_chars (fun c => is_lower c || is_digit c || is_char 95 c) (lower s) = true.
Proof.
  induction s as [|c s IH]; simpl; [reflexivity |].
  intros H. apply andb_true_iff in H as [H1 H2].
  rewrite lower_char_word_class, IH by assumption. reflexivity.
Qed.

Lemma pilot_char_not_control (c : ascii) :
  pilot_name_char c = true -> is_space c = false -> control_char c = false.
Proof.
  intros H1 H2; destruct c as [[] [] [] [] [] [] [] []]; vm_compute in H1, H2 |- *;
    first [reflexivity | discriminate H1 | discriminate H2].
Qed.

Lemma forallb_filter_sub (p q : ascii -> bool) (l : list ascii) :
  forallb p l = true -> forallb p (List.filter q l) = true.
Proof.
  induction l as [|c l IH]; simpl; [reflexivity |].
  intros H. apply andb_true_iff in H as [H1 H2].
  destruct (q c); simpl; [rewrite H1 |]; apply IH, H2.
Qed.

Lemma length_filter_le (q : ascii -> bool) (l : list ascii) : (length (List.filter q l) <= length l)%nat.
Proof. induction l as [|c l IH]; simpl; [lia |]. destruct (q c); simpl; lia. Qed.

Lemma validate_callsign_none (c : string) :
  validate_callsign c = None <->
  truthy c = true /\ (String.length c <= 50)%nat /\ all_chars pilot_name_char c = true.
Proof.
  unfold validate_callsign, MAX_CALLSIGN_LENGTH.
  destruct (truthy c); simpl; [| split; [discriminate | intros [H _]; discriminate]].
  destruct (50 <? String.length c)%nat eqn:E1; simpl.
  - apply Nat.ltb_lt in E1. split; [discriminate | lia].
  - apply Nat.ltb_ge in E1. destruct (all_chars pilot_name_char c); simpl.
    + split; [intros _; repeat split; lia | reflexivity].
    + split; [discriminate | intros [_ [_ H]]; discriminate].
Qed.

Lemma first_callsign_error_none (i : nat) (callsigns : list string) :
  first_callsign_error i callsigns = None <-> Forall (fun c => validate_callsign c = None) callsigns.
Proof.
  revert i; induction callsigns as [|c cs IH]; intros i; simpl.
  - split; [constructor | reflexivity].
  - rewrite Forall_cons. destruct (validate_callsign c).
    + split; [discriminate | intros [H _]; discriminate].
    + rewrite IH. tauto.
Qed.

Lemma first_callsign_error_first (i : nat) (pre rest : list string) (c e : string) :
  Forall (fun c => validate_callsign c = None) pre -> validate_callsign c = Some e ->
  first_callsign_error i (pre ++ c :: rest)%list
  = Some ("Callsign " ++ str_int (Z.of_nat (i + length pre + 1)) ++ ": " ++ e).
Proof.
  revert i; induction pre as [|c' pre IH]; intros i Hpre Hc; simpl.
  - rewrite Hc. rewrite Nat.add_0_r. reflexivity.
  - apply Forall_cons in Hpre as [H1 H2]. rewrite H1, IH by assumption.
    do 4 f_equal. lia.
Qed.

Lemma validate_callsigns_list_none (callsigns : list string) :
  validate_callsigns_list callsigns = None <->
  (length callsigns <= 100)%nat /\ Forall (fun c => validate_callsign c = None) callsigns.
Proof.
  unfold validate_callsigns_list, MAX_CALLSIGNS_COUNT.
  destruct (100 <? length callsigns)%nat eqn:E.
  - apply Nat.ltb_lt in E. split; [discriminate | lia].
  - apply Nat.ltb_ge in E. rewrite first_callsign_error_none. tauto.
Qed.

Lemma callsign_sanitized_valid (c : string) :
  validate_callsign c = None -> truthy (strip c) = true ->
  validate_callsign (sanitize_string (strip c) 1000) = None.
Proof.
  intros Hc Ht. apply validate_callsign_none in Hc as [_ [Hlen Hch]].
  apply validate_callsign_none.
  rewrite length_L in Hlen |- *. rewrite all_chars_L in Hch |- *.
  rewrite L_sanitize, Ht. rewrite L_strip.
  set (l := strip_list (L c)).
  assert (forallb pilot_name_char l = true) as Hl by (apply forallb_strip_list, Hch).
  assert (length l <= 50)%nat as Hll by (pose proof (length_strip_list (L c)); unfold l; lia).
  assert (head_ok l) as Hh by apply strip_list_head.
  assert (l <> []) as Hne.
  { intros E. assert (strip c = "") as E'.
    { apply L_inj. rewrite L_strip. exact E. }
    rewrite E' in Ht. discriminate. }
  split; [| split].
  - destruct l as [|d r] eqn:El; [contradiction |].
    simpl in Hh, Hl. apply andb_true_iff in Hl as [Hd _].
    assert (not_control d = true) as Hnc.
    { unfold not_control. rewrite pilot_char_not_control by assumption. reflexivity. }
    destruct (sanitize_string (strip c) 1000) eqn:Es; [| reflexivity].
    exfalso. pose proof (f_equal L Es) as Ef. rewrite L_sanitize, Ht, L_strip in Ef.
    fold l in Ef. rewrite El in Ef. simpl in Ef. rewrite Hnc in Ef. simpl in Ef.
    apply (strip_list_nonspace (d :: take 999 (List.filter not_control r)) d); [left | exact Hh | exact Ef].
  - pose proof (length_strip_list (take 1000 (List.filter not_control l))).
    rewrite length_take in H. pose proof (length_filter_le not_control l). lia.
  - apply forallb_strip_list, forallb_take, forallb_filter_sub, Hl.
Qed.

(* ------------------------------------------------------------------ *)
(** ** Properties of the validators and the resolver *)

(** [sanitize_string] returns at most [max_length] characters, none of
    the removed control characters, and no leading or trailing
    whitespace. *)
Theorem sanitize_string_shape (value : string) (max_length : nat) :
  (String.length (sanitize_string value max_length) <= max_length)%nat
  /\ all_chars not_control (sanitize_string value max_length) = true
  /\ starts_with_space (sanitize_string value max_length) = false
  /\ ends_with_space (sanitize_string value max_length) = false.
Proof.
  split; [apply sanitize_length |].
  split; [rewrite all_chars_L; apply sanitize_no_control |].
  destruct (sanitize_outer value max_length) as [H1 H2].
  split; [apply starts_head, H1 | apply ends_head, H2].
Qed.

(** Sanitizing twice with the same bound is sanitizing once. *)
Theorem sanitize_string_idempotent (value : string) (max_length : nat) :
  sanitize_string (sanitize_string value max_length) max_length = sanitize_string value max_length.
Proof.
  apply L_inj. remember (sanitize_string value max_length) as t eqn:Et.
  rewrite L_sanitize. destruct (truthy t) eqn:Ht.
  - rewrite filter_id by (rewrite Et; apply sanitize_no_control).
    rewrite take_ge by (rewrite <- length_L, Et; apply sanitize_length).
    rewrite Et. apply sanitize_strip.
  - destruct t; [reflexivity | discriminate].
Qed.

(** [validate_callsigns_list] accepts exactly the lists of at most 100
    callsigns that all pass [validate_callsign]; within that bound, a list
    is rejected with the error of its first invalid callsign, numbered
    from 1. *)
Theorem validate_callsigns_list_spec (callsigns : list string) :
  (validate_callsigns_list callsigns = None <->
     (length callsigns <= 100)%nat /\ Forall (fun c => validate_callsign c = None) callsigns)
  /\ (forall pre c rest e, callsigns = (pre ++ c :: rest)%list -> (length callsigns <= 100)%nat ->
        Forall (fun c => validate_callsign c = None) pre -> validate_callsign c = Some e ->
        validate_callsigns_list callsigns
        = Some ("Callsign " ++ str_int (Z.of_nat (length pre + 1)) ++ ": " ++ e)).
Proof.
  split; [apply validate_callsigns_list_none |].
  intros pre c rest e -> Hlen Hpre Hc. unfold validate_callsigns_list, MAX_CALLSIGNS_COUNT.
  destruct (100 <? _)%nat eqn:E; [apply Nat.ltb_lt in E; lia |].
  apply (first_callsign_error_first 0); assumption.
Qed.

Lemma validate_callsigns_list_spec_witness :
  validate_callsigns_list ["Viper"; "Bad!"; "x"] = Some "Callsign 2: Callsign contains invalid characters".
Proof.
  apply (proj2 (validate_callsigns_list_spec ["Viper"; "Bad!"; "x"]) ["Viper"] "Bad!" ["x"]);
    [reflexivity | simpl; lia | repeat constructor | reflexivity].
Defined.

(** What the squadron-callsign handler saves passes [validate_callsign]
    again, and holds at most 100 callsigns. *)
Theorem update_squadron_callsigns_saved_valid (callsigns saved : list string) :
  update_squadron_callsigns callsigns = inr saved ->
  (length saved <= 100)%nat /\ Forall (fun c => validate_callsign c = None) saved.
Proof.
  unfold update_squadron_callsigns.
  destruct (validate_callsigns_list callsigns) eqn:E; [discriminate |].
  intros H. injection H as <-.
  apply validate_callsigns_list_none in E as [Hlen Hall].
  split.
  - rewrite length_map. etransitivity; [| exact Hlen].
    clear. induction callsigns as [|c cs IH]; simpl; [lia |]. destruct (truthy (strip c)); simpl; lia.
  - induction callsigns as [|c cs IH]; simpl; [constructor |].
    apply Forall_cons in Hall as [Hc Hcs]. simpl in Hlen.
    destruct (truthy (strip c)) eqn:Ht; simpl.
    + constructor; [apply callsign_sanitized_valid; assumption | apply IH; [lia | exact Hcs]].
    + apply IH; [lia | exact Hcs].
Qed.

Lemma update_squadron_callsigns_saved_valid_witness :
  update_squadron_callsigns ["  Viper 1 "; "   "; "Machinegun817"] = inr ["Viper 1"; "Machinegun817"]
  /\ (length ["Viper 1"; "Machinegun817"] <= 100)%nat
  /\ Forall (fun c => validate_callsign c = None) ["Viper 1"; "Machinegun817"].
Proof.
  split; [reflexivity |].
  apply (update_squadron_callsigns_saved_valid ["  Viper 1 "; "   "; "Machinegun817"]). reflexivity.
Defined.

(** On a name of ASCII characters (the [string] of this model), where
    Python's [\w] is [[A-Za-z0-9_]] and [str.lower] is ASCII lowercasing,
    [normalize_name] yields only lowercase letters, digits and [_], and
    normalizing a normalized name changes nothing. *)
Theorem normalize_name_normal (name : string) :
  normalize_name (normalize_name name) = normalize_name name
  /\ all_chars (fun c => is_lower c || is_digit c || is_char 95 c) (normalize_name name) = true.
Proof.
  unfold normalize_name. rewrite filter_word_lower by apply all_chars_filter.
  rewrite lower_idem. split; [reflexivity |].
  apply all_chars_lower_class, all_chars_filter.
Qed.

(* ------------------------------------------------------------------ *)
(** ** The flight-time estimator *)

Lemma set_field_flight_same (r : mission) : set_field F_flight (flight_minutes r) r = r.
Proof. destruct r; reflexivity. Qed.

(** [calculate_actual_flight_hours] adds and removes no pilot, and of a
    pilot's record it changes at most [flight_minutes]. *)
Theorem calculate_actual_flight_hours_flight_only (pm : gmap string mission)
    (pp : gmap string (list pos)) (k : string) :
  exists v, calculate_actual_flight_hours pm pp !! k = set_field F_flight v <$> pm !! k.
Proof.
  rewrite calculate_lookup. destruct (pp !! k) as [ps|].
  - unfold flight_hours_step. destruct (pm !! k) as [r|] eqn:E; simpl.
    + destruct ps as [|p ps].
      * exists (flight_minutes r). rewrite E, set_field_flight_same. reflexivity.
      * exists (minutes_of_seconds (total_flight_time (p :: ps))). rewrite lookup_insert_eq. reflexivity.
    + exists 0%Z. rewrite E. reflexivity.
  - destruct (pm !! k) as [r|]; simpl.
    + exists (flight_minutes r). rewrite set_field_flight_same. reflexivity.
    + exists 0%Z. reflexivity.
Qed.

(* ------------------------------------------------------------------ *)
(** ** The finalizer *)

Lemma get_set_derived (f : field) (tk : Z) (kd : string) (r : mission) :
  get_field f (set_derived tk kd r) = get_field f r.
Proof. destruct f; reflexivity. Qed.

Lemma get_set_strings (f : field) (ms ac pl : string) (r : mission) :
  get_field f (set_strings ms ac pl r) = get_field f r.
Proof. destruct f; reflexivity. Qed.

Lemma valid_platform_cases (p : string) :
  validate_platform p = true -> p = "DCS" \/ p = "BMS" \/ p = "IL2".
Proof.
  unfold validate_platform, VALID_PLATFORMS. simpl.
  destruct (String.eqb_spec p "DCS") as [-> | _]; [auto |].
  destruct (String.eqb_spec p "BMS") as [-> | _]; [auto |].
  destruct (String.eqb_spec p "IL2") as [-> | _]; [auto |].
  rewrite andb_false_r. discriminate.
Qed.

Lemma clamp_fields_keep (d : mission) :
  let d1 := fold_left clamp_field numeric_fields d in
  m_date d1 = m_date d /\ nicknames d1 = nicknames d /\ kia d1 = kia d.
Proof.
  unfold numeric_fields. simpl. unfold clamp_field.
  repeat case_match; simpl; auto.
Qed.

Lemma platform_sanitized (p : string) :
  In (sanitize_string (if validate_platform p then p else "DCS") 200) VALID_PLATFORMS.
Proof.
  destruct (validate_platform p) eqn:E.
  - destruct (valid_platform_cases _ E) as [-> | [-> | ->]]; simpl; auto.
  - simpl. auto.
Qed.

Lemma finalize_one_bounds (d r : mission) :
  finalize_one d = Some r ->
  (forall f, f <> F_kia -> (0 <= get_field f r <= 10000)%Z)
  /\ total_kills r = (aa_kills r + ag_kills r)%Z
  /\ In (platform r) VALID_PLATFORMS
  /\ m_date r = m_date d /\ nicknames r = nicknames d /\ kia r = kia d.
Proof.
  unfold finalize_one.
  destruct (clamp_fields_keep d) as [Hdate [Hnick Hkia]].
  assert (forall f, f <> F_kia -> (0 <= get_field f (fold_left clamp_field numeric_fields d) <= 10000)%Z)
    as Hb by (intros f Hf; apply clamped_bounds, Hf).
  set (d1 := fold_left clamp_field numeric_fields d) in *. clearbody d1.
  destruct (_ || _); [| discriminate]. intros Hd. injection Hd as <-.
  split; [| split; [| split; [| split; [| split]]]].
  - intros f Hf. rewrite get_set_derived, get_set_strings. apply Hb, Hf.
  - reflexivity.
  - apply platform_sanitized.
  - exact Hdate.
  - exact Hnick.
  - exact Hkia.
Qed.

(** Every record [finalize_pilot_data] keeps comes from the input
    record under its key; its clamped counters ([aa_kills], [ag_kills],
    [frat_kills], [rtb], [ejections], [deaths], [flight_minutes]: every
    [field] but [kia]) are in [[0, 10000]], its [total_kills] is
    [aa_kills + ag_kills] (so up to 20000), and its platform is among
    [DCS], [BMS], [IL2]; its date, nickname list and [kia] are those of
    the input record. *)
Theorem finalize_pilot_data_record_bounds (pm : gmap string mission) (k : string) (r : mission) :
  finalize_pilot_data pm !! k = Some r ->
  exists d, pm !! k = Some d
  /\ (forall f, f <> F_kia -> (0 <= get_field f r <= 10000)%Z)
  /\ total_kills r = (aa_kills r + ag_kills r)%Z
  /\ In (platform r) VALID_PLATFORMS
  /\ m_date r = m_date d /\ nicknames r = nicknames d /\ kia r = kia d.
Proof.
  unfold finalize_pilot_data. rewrite lookup_omap.
  destruct (pm !! k) as [d|]; simpl; [| discriminate].
  intros Hd. exists d. split; [reflexivity |]. apply finalize_one_bounds, Hd.
Qed.

Lemma finalize_pilot_data_record_bounds_witness :
  exists r, finalize_pilot_data sample_missions !! "viper" = Some r /\ In (platform r) VALID_PLATFORMS.
Proof.
  eexists. split; [reflexivity |].
  destruct (finalize_pilot_data_record_bounds sample_missions "viper" _ eq_refl)
    as [d [_ [_ [_ [Hp _]]]]].
  exact Hp.
Defined.

(* ------------------------------------------------------------------ *)
(** ** The event interpreter *)

Definition is_kill_event (ev : event) : bool :=
  match e_action ev, e_secondary ev with
  | Some a, Some _ => String.eqb a "HasBeenDestroyed"
  | _, _ => false
  end.

Definition is_scoring_action (action : option string) : bool :=
  match action with
  | Some a => String.eqb a "HasBeenDestroyed" || String.eqb a "HasLanded" || String.eqb a "HasEjected"
  | None => false
  end.

Definition is_kill_field (f : field) : bool :=
  match f with F_aa | F_ag | F_frat => true | _ => false end.

(** Counter [g] of pilot [k] ([pilot_missions[k][g]], default if absent). *)
Definition at_field (dflt : mission) (st : state) (k : string) (g : field) : Z :=
  get_field g (get_or dflt (pilot_missions st !! k)).

Definition kill_sum (dflt : mission) (st : state) (k : string) : Z :=
  (at_field dflt st k F_aa + at_field dflt st k F_ag + at_field dflt st k F_frat)%Z.

Lemma event_effects_shape (cfg : config) (dflt : mission) (ev : event) (prim : obj)
    (pilot aircraft group nickname : string) (st : state) :
  event_effects cfg dflt ev prim pilot aircraft group nickname st = st
  \/ (is_scoring_action (e_action ev) = true
      /\ ((exists n f, event_effects cfg dflt ev prim pilot aircraft group nickname st
                       = upd_mission dflt n (incr f) st
                       /\ (is_kill_field f = true -> is_kill_event ev = true))
          \/ (exists n, event_effects cfg dflt ev prim pilot aircraft group nickname st
                       = upd_mission dflt n (incr F_deaths) (upd_mission dflt n (incr F_kia) st)))).
Proof.
  destruct ev as [act p sec loc t]. unfold event_effects. simpl.
  repeat case_match; subst;
    first [ left; reflexivity
          | right; split; [reflexivity |];
            first [ left; do 2 eexists; split; [reflexivity |]; simpl;
                    first [intros _; reflexivity | intros Hf; discriminate Hf]
                  | right; eexists; reflexivity ] ].
Qed.

Lemma at_field_upd (dflt : mission) (n k : string) (f : mission -> mission) (st : state) (g : field) :
  at_field dflt (upd_mission dflt n f st) k g
  = if bool_decide (n = k) then get_field g (f (get_or dflt (pilot_missions st !! k)))
    else at_field dflt st k g.
Proof.
  unfold at_field, upd_mission, upd. simpl.
  case_bool_decide as Hnk.
  - subst. rewrite lookup_insert_eq. reflexivity.
  - rewrite lookup_insert_ne by exact Hnk. reflexivity.
Qed.

Lemma upd_mission_keeps_key (dflt : mission) (n k : string) (f : mission -> mission) (st : state) :
  is_Some (pilot_missions st !! k) -> is_Some (pilot_missions (upd_mission dflt n f st) !! k).
Proof.
  intros Hk. unfold upd_mission, upd. simpl.
  destruct (decide (n = k)) as [-> | Hne].
  - rewrite lookup_insert_eq. eauto.
  - rewrite lookup_insert_ne by exact Hne. exact Hk.
Qed.

Lemma get_field_set_aircraft (a : string) (r : mission) (g : field) :
  get_field g (set_aircraft a r) = get_field g r.
Proof. destruct g; reflexivity. Qed.

Lemma get_field_add_nickname (p : string) (r : mission) (g : field) :
  get_field g (add_nickname p r) = get_field g r.
Proof. unfold add_nickname. destruct existsb; [reflexivity |]. destruct g; reflexivity. Qed.

Lemma get_field_incr (f g : field) (r : mission) :
  get_field g (incr f r) = (get_field g r + if field_eqb g f then 1 else 0)%Z.
Proof. unfold incr. rewrite get_set_field. destruct (field_eqb g f) eqn:E; [| lia].
  destruct f, g; try discriminate; reflexivity. Qed.

(** One event's effect on the counters: no pilot key removed, each counter
    raised by 0 or 1, the kill counters together by at most [kill]. *)
Definition bounded_step (dflt : mission) (kill : Z) (st st' : state) : Prop :=
  forall k,
    (is_Some (pilot_missions st !! k) -> is_Some (pilot_missions st' !! k))
    /\ (forall g, at_field dflt st k g <= at_field dflt st' k g <= at_field dflt st k g + 1)%Z
    /\ (kill_sum dflt st' k <= kill_sum dflt st k + kill)%Z.

Lemma bounded_step_refl (dflt : mission) (kill : Z) (st : state) :
  (0 <= kill)%Z -> bounded_step dflt kill st st.
Proof. intros Hk k. unfold kill_sum. repeat split; auto; lia. Qed.

Lemma bounded_step_incr (dflt : mission) (kill : Z) (n : string) (f : field) (st : state) :
  (0 <= kill)%Z -> (is_kill_field f = true -> kill = 1%Z) ->
  bounded_step dflt kill st (upd_mission dflt n (incr f) st).
Proof.
  intros H0 Hkf k. split; [apply upd_mission_keeps_key |]. split.
  - intros g. rewrite !at_field_upd. case_bool_decide; [| lia].
    rewrite get_field_incr. fold (at_field dflt st k g). destruct (field_eqb g f); lia.
  - unfold kill_sum. rewrite !at_field_upd. case_bool_decide; [| lia].
    rewrite !get_field_incr.
    fold (at_field dflt st k F_aa) (at_field dflt st k F_ag) (at_field dflt st k F_frat).
    destruct f; simpl in *; try (specialize (Hkf eq_refl)); lia.
Qed.

Lemma bounded_step_victim (dflt : mission) (kill : Z) (n : string) (st : state) :
  (0 <= kill)%Z ->
  bounded_step dflt kill st (upd_mission dflt n (incr F_deaths) (upd_mission dflt n (incr F_kia) st)).
Proof.
  intros H0 k. split; [intros; do 2 apply upd_mission_keeps_key; assumption |].
  assert (Hat : forall g, at_field dflt (upd_mission dflt n (incr F_deaths)
                   (upd_mission dflt n (incr F_kia) st)) k g
                 = (at_field dflt st k g
                    + if bool_decide (n = k) then
                        ((if field_eqb g F_kia then 1 else 0) + if field_eqb g F_deaths then 1 else 0)
                      else 0)%Z).
  { intros g. rewrite !at_field_upd. unfold upd_mission at 1, upd. simpl.
    case_bool_decide as Hnk; [| lia]. subst.
    rewrite lookup_insert_eq. simpl. rewrite !get_field_incr. unfold at_field. lia. }
  unfold kill_sum. rewrite !Hat. split.
  - intros g. rewrite Hat. case_bool_decide; [| lia]. destruct g; simpl; lia.
  - case_bool_decide; simpl; lia.
Qed.

Lemma bounded_step_pre (dflt : mission) (kill : Z) (st st1 st' : state) :
  (forall k g, at_field dflt st1 k g = at_field dflt st k g) ->
  (forall k, is_Some (pilot_missions st !! k) -> is_Some (pilot_missions st1 !! k)) ->
  bounded_step dflt kill st1 st' -> bounded_step dflt kill st st'.
Proof.
  intros Ha Hk Hb k. destruct (Hb k) as (H1 & H2 & H3). unfold kill_sum in *.
  rewrite !Ha in *. split; [auto | split; [intros g; rewrite <- Ha; auto | lia]].
Qed.

Definition kill_weight (ev : event) : Z := if is_kill_event ev then 1%Z else 0%Z.

Lemma process_event_prefix (dflt : mission) (nickname aircraft pilot : string) (st : state) :
  let st1 := upd_mission dflt nickname (set_aircraft aircraft)
               (upd_mission dflt nickname (add_nickname pilot) st) in
  (forall k g, at_field dflt st1 k g = at_field dflt st k g)
  /\ (forall k, is_Some (pilot_missions st !! k) -> is_Some (pilot_missions st1 !! k)).
Proof.
  cbv zeta. split.
  - intros k g. rewrite at_field_upd. case_bool_decide as Hnk.
    + subst. rewrite get_field_set_aircraft.
      change (get_field g (get_or dflt (pilot_missions
                (upd_mission dflt k (add_nickname pilot) st) !! k)))
        with (at_field dflt (upd_mission dflt k (add_nickname pilot) st) k g).
      rewrite at_field_upd, bool_decide_true by reflexivity.
      apply get_field_add_nickname.
    + rewrite at_field_upd, bool_decide_false by exact Hnk. reflexivity.
  - intros k Hk. do 2 apply upd_mission_keeps_key. exact Hk.
Qed.

Lemma record_position_at (ev : event) (n : string) (st st' : state) (dflt : mission) :
  record_position ev n st = inl st' \/ record_position ev n st = inr st' ->
  (forall k g, at_field dflt st' k g = at_field dflt st k g)
  /\ (forall k, is_Some (pilot_missions st !! k) -> is_Some (pilot_missions st' !! k)).
Proof.
  intros Hr. apply record_position_missions in Hr. unfold at_field. rewrite Hr. auto.
Qed.

Lemma process_event_bounded (cfg : config) (dflt : mission) (ev : event) (st : state) :
  bounded_step dflt (kill_weight ev) st (process_event cfg dflt ev st).
Proof.
  assert (Hw : (0 <= kill_weight ev)%Z) by (unfold kill_weight; destruct is_kill_event; lia).
  unfold process_event.
  destruct (e_primary ev) as [prim |]; [| now apply bounded_step_refl].
  repeat (destruct (negb _ || _) || destruct (negb _)); try now apply bounded_step_refl.
  all: try (destruct (negb (truthy _) || _); [now apply bounded_step_refl |]).
  all: cbv zeta.
  all: match goal with |- context [record_position ?e ?n ?s] =>
         destruct (process_event_prefix dflt n (sanitized_aircraft prim)
                     (sanitize_string (strip (findtext (o_pilot prim) EmptyString)) 100) st) as [Ha1 Hk1];
         destruct (record_position e n s) as [st2 | st2] eqn:Hr end.
  all: first [ destruct (record_position_at _ _ _ _ dflt (or_introl Hr)) as [Ha2 Hk2]
             | destruct (record_position_at _ _ _ _ dflt (or_intror Hr)) as [Ha2 Hk2] ].
  all: eapply bounded_step_pre; [exact Ha1 | exact Hk1 |].
  all: eapply bounded_step_pre; [exact Ha2 | exact Hk2 |].
  { now apply bounded_step_refl. }
  destruct (event_effects_shape cfg dflt ev prim
              (sanitize_string (strip (findtext (o_pilot prim) EmptyString)) 100)
              (sanitized_aircraft prim) (findtext (o_group prim) EmptyString)
              (resolve_fuzzy_nickname (sanitize_string (strip (findtext (o_pilot prim) EmptyString)) 100)
                 (nickname_fragments cfg)) st2)
    as [-> | [_ [(n & f & -> & Hf) | (n & ->)]]].
  - now apply bounded_step_refl.
  - apply bounded_step_incr; [exact Hw |]. intros Hkf. unfold kill_weight. now rewrite (Hf Hkf).
  - now apply bounded_step_victim.
Qed.

Lemma process_event_non_scoring_same (cfg : config) (dflt : mission) (ev : event) (st : state) :
  is_scoring_action (e_action ev) = false ->
  forall k g, at_field dflt (process_event cfg dflt ev st) k g = at_field dflt st k g.
Proof.
  intros Hns. unfold process_event.
  destruct (e_primary ev) as [prim |]; [| reflexivity].
  repeat (destruct (negb _ || _) || destruct (negb _)); try reflexivity.
  all: cbv zeta.
  all: match goal with |- context [record_position ?e ?n ?s] =>
         destruct (process_event_prefix dflt n (sanitized_aircraft prim)
                     (sanitize_string (strip (findtext (o_pilot prim) EmptyString)) 100) st) as [Ha1 Hk1];
         destruct (record_position e n s) as [st2 | st2] eqn:Hr end.
  all: first [ destruct (record_position_at _ _ _ _ dflt (or_introl Hr)) as [Ha2 Hk2]
             | destruct (record_position_at _ _ _ _ dflt (or_intror Hr)) as [Ha2 Hk2] ].
  { intros k g. rewrite Ha2. apply Ha1. }
  destruct (event_effects_shape cfg dflt ev prim
              (sanitize_string (strip (findtext (o_pilot prim) EmptyString)) 100)
              (sanitized_aircraft prim) (findtext (o_group prim) EmptyString)
              (resolve_fuzzy_nickname (sanitize_string (strip (findtext (o_pilot prim) EmptyString)) 100)
                 (nickname_fragments cfg)) st2)
    as [-> | [Hs _]].
  - intros k g. rewrite Ha2. apply Ha1.
  - rewrite Hns in Hs. discriminate.
Qed.

(** Over a list of events, no pilot is removed and no counter decreases,
    and a pilot's [aa_kills + ag_kills + frat_kills] grows by at most the
    number of [HasBeenDestroyed] events with a secondary object. *)
Theorem process_events_counters (cfg : config) (dflt : mission) (evs : list event) (st : state) (k : string) :
  (is_Some (pilot_missions st !! k) -> is_Some (pilot_missions (process_events cfg dflt evs st) !! k))
  /\ (forall g, at_field dflt st k g <= at_field dflt (process_events cfg dflt evs st) k g)%Z
  /\ (kill_sum dflt (process_events cfg dflt evs st) k
      <= kill_sum dflt st k + Z.of_nat (length (List.filter is_kill_event evs)))%Z.
Proof.
  unfold process_events. revert st.
  induction evs as [| ev evs IH]; intros st; simpl.
  - repeat split; auto; lia.
  - destruct (process_event_bounded cfg dflt ev st k) as (H1 & H2 & H3).
    destruct (IH (process_event cfg dflt ev st)) as (I1 & I2 & I3).
    unfold kill_weight in H3.
    repeat split.
    + auto.
    + intros g. specialize (H2 g). specialize (I2 g). lia.
    + destruct (is_kill_event ev); simpl; lia.
Qed.

(* ------------------------------------------------------------------ *)
(** ** The ledger *)

Lemma dict_set_keys (k x : string) (v : ledger_entry) (l : ledger) :
  x ∈ map fst (dict_set k v l) -> x = k \/ x ∈ map fst l.
Proof.
  induction l as [| [k' v'] l IH]; simpl.
  - rewrite elem_of_cons. intros [-> | Hx]; [auto | inversion Hx].
  - destruct (String.eqb k k') eqn:E; simpl; rewrite !elem_of_cons.
    + intros [-> | Hx]; auto.
    + intros [-> | Hx]; [auto |]. destruct (IH Hx); auto.
Qed.

Lemma dict_set_nodup (k : string) (v : ledger_entry) (l : ledger) :
  NoDup (map fst l) -> NoDup (map fst (dict_set k v l)).
Proof.
  induction l as [| [k' v'] l IH]; simpl; intros Hnd.
  - constructor; [apply not_elem_of_nil | constructor].
  - apply NoDup_cons in Hnd as [Hk' Hnd].
    destruct (String.eqb k k') eqn:E; simpl.
    + apply String.eqb_eq in E. subst. constructor; assumption.
    + apply String.eqb_neq in E. constructor; [| auto].
      intros Hin. destruct (dict_set_keys _ _ _ _ Hin); [congruence | contradiction].
Qed.

Lemma dict_set_has (k : string) (v : ledger_entry) (l : ledger) : (k, v) ∈ dict_set k v l.
Proof.
  induction l as [| [k' v'] l IH]; simpl; [left |].
  destruct (String.eqb k k'); [left | right; exact IH].
Qed.

Lemma dict_set_other (k x : string) (v w : ledger_entry) (l : ledger) :
  x <> k -> (x, w) ∈ dict_set k v l <-> (x, w) ∈ l.
Proof.
  intros Hx. induction l as [| [k' v'] l IH]; simpl.
  - rewrite !elem_of_cons. split; [intros [H | H]; [congruence | inversion H] | intros H; inversion H].
  - destruct (String.eqb k k') eqn:E; rewrite !elem_of_cons.
    + apply String.eqb_eq in E. subst. split; intros [H | H]; try congruence; auto.
    + rewrite IH. reflexivity.
Qed.

Lemma length_dict_set (k : string) (v : ledger_entry) (l : ledger) :
  (length (dict_set k v l) <= length l + 1)%nat.
Proof.
  induction l as [| [k' v'] l IH]; simpl; [lia |]. destruct (String.eqb k k'); simpl; lia.
Qed.

Lemma insert_by_stamp_perm (x : string * ledger_entry) (l : ledger) :
  Permutation (insert_by_stamp x l) (x :: l).
Proof.
  induction l as [| y l IH]; simpl; [reflexivity |].
  destruct (_ <=? _)%Z; [reflexivity |].
  etransitivity; [apply perm_skip, IH | apply perm_swap].
Qed.

Lemma sort_by_stamp_perm (l : ledger) : Permutation (sort_by_stamp l) l.
Proof.
  induction l as [| x l IH]; simpl; [reflexivity |].
  etransitivity; [apply insert_by_stamp_perm | apply perm_skip, IH].
Qed.

Lemma nodup_map_drop (n : nat) (l : ledger) : NoDup (map fst l) -> NoDup (map fst (drop n l)).
Proof.
  rewrite <- (take_drop n l) at 1. rewrite map_app, NoDup_app. tauto.
Qed.

Lemma dict_set_elem (k : string) (v : ledger_entry) (l : ledger) (e : string * ledger_entry) :
  e ∈ dict_set k v l -> e = (k, v) \/ e ∈ l.
Proof.
  induction l as [| [k' v'] l IH]; simpl.
  - rewrite elem_of_cons. intros [-> | H]; [auto | inversion H].
  - destruct (String.eqb k k'); rewrite !elem_of_cons.
    + intros [-> | H]; auto.
    + intros [-> | H]; [auto |]. destruct (IH H); auto.
Qed.

Lemma elem_of_drop_sub {A} (n : nat) (l : list A) (x : A) : x ∈ drop n l -> x ∈ l.
Proof. intros H. rewrite <- (take_drop n l). apply elem_of_app. auto. Qed.

Lemma mark_cases (l : ledger) (now : Z) (mission_name mission_date : string) :
  let l1 := dict_set (mission_key mission_name mission_date)
              (mkEntry mission_name mission_date now) l in
  (length l1 <= 100 /\ mark_mission_as_processed l now mission_name mission_date = l1)%nat
  \/ (100 < length l1 /\ mark_mission_as_processed l now mission_name mission_date
                          = drop (length (sort_by_stamp l1) - 100) (sort_by_stamp l1))%nat.
Proof.
  cbv zeta. unfold mark_mission_as_processed.
  destruct (Nat.ltb_spec 100 (length (dict_set (mission_key mission_name mission_date)
              (mkEntry mission_name mission_date now) l))); [right | left]; split; auto; lia.
Qed.

(** After [mark_mission_as_processed] the ledger holds at most 100
    entries, every entry in it was in the ledger before or is the new one,
    and keys that were unique stay unique. *)
Theorem mark_mission_as_processed_bounded (l : ledger) (now : Z) (mission_name mission_date : string) :
  let l' := mark_mission_as_processed l now mission_name mission_date in
  (length l' <= 100)%nat
  /\ (forall e, e ∈ l' -> e = (mission_key mission_name mission_date,
                               mkEntry mission_name mission_date now) \/ e ∈ l)
  /\ (NoDup (map fst l) -> NoDup (map fst l')).
Proof.
  cbv zeta.
  destruct (mark_cases l now mission_name mission_date) as [[Hlen ->] | [Hlen ->]].
  - split; [exact Hlen |]. split; [apply dict_set_elem | apply dict_set_nodup].
  - split; [rewrite length_drop, length_sort_by_stamp; lia |]. split.
    + intros e He. apply elem_of_drop_sub in He. apply dict_set_elem.
      apply list_elem_of_In. apply list_elem_of_In in He.
      exact (Permutation_in _ (sort_by_stamp_perm _) He).
    + intros Hnd. apply nodup_map_drop.
      apply NoDup_ListNoDup.
      apply (Permutation_NoDup (Permutation_map fst (Permutation_sym (sort_by_stamp_perm _)))).
      apply NoDup_ListNoDup, dict_set_nodup, Hnd.
Qed.

(** Below the cap, [mark_mission_as_processed] is a dict store:
    the mission's key then maps to the new entry and every other key's
    entries are those of the old ledger. *)
Theorem mark_mission_as_processed_store (l : ledger) (now : Z) (mission_name mission_date : string) :
  (length l < 100)%nat ->
  let l' := mark_mission_as_processed l now mission_name mission_date in
  (mission_key mission_name mission_date, mkEntry mission_name mission_date now) ∈ l'
  /\ (forall x w, x <> mission_key mission_name mission_date -> ((x, w) ∈ l' <-> (x, w) ∈ l)).
Proof.
  intros Hl. cbv zeta.
  destruct (mark_cases l now mission_name mission_date) as [[_ ->] | [Hlen _]].
  - split; [apply dict_set_has | intros; apply dict_set_other; assumption].
  - pose proof (length_dict_set (mission_key mission_name mission_date)
                  (mkEntry mission_name mission_date now) l). lia.
Qed.

Definition sample_ledger : ledger :=
  [("Op_Blue_2024-01-01", mkEntry "Op_Blue" "2024-01-01" 5)].

Lemma mark_mission_as_processed_store_witness :
  (length sample_ledger < 100)%nat
  /\ (mission_key "Op_Red" "2024-01-02", mkEntry "Op_Red" "2024-01-02" 7)
       ∈ mark_mission_as_processed sample_ledger 7 "Op_Red" "2024-01-02".
Proof.
  split; [vm_compute; lia |].
  refine (proj1 (mark_mission_as_processed_store sample_ledger 7 "Op_Red" "2024-01-02" _)).
  vm_compute. lia.
Defined.

(* ------------------------------------------------------------------ *)
(** ** The pipeline *)

Lemma parse_xml_unfold (cfg : config) (l : ledger) (now : Z) (file_exists : bool)
    (filepath : string) (doc : option document) :
  (file_exists = false /\ parse_xml cfg l now file_exists filepath doc = (APIError "FILE_NOT_FOUND" 404, l))
  \/ (file_exists = true /\ ends_with_xml filepath = false
      /\ parse_xml cfg l now file_exists filepath doc = (APIError "FILE_INVALID_TYPE" 400, l))
  \/ (file_exists = true /\ ends_with_xml filepath = true
      /\ snd (parse_xml cfg l now file_exists filepath doc) = snd (parse_tacview_xml cfg l now doc)
      /\ match fst (parse_tacview_xml cfg l now doc) with
         | DuplicateMarker _ _ => fst (parse_xml cfg l now file_exists filepath doc) = Response true true 0 ∅
         | PilotData m =>
             fst (parse_xml cfg l now file_exists filepath doc) = Response true true 0 ∅
             \/ (exists c s, fst (parse_xml cfg l now file_exists filepath doc) = APIError c s)
             \/ (m !! "duplicate" = None /\ m <> ∅
                 /\ fst (parse_xml cfg l now file_exists filepath doc) = Response true false (size m) m)
         end).
Proof.
  unfold parse_xml. destruct file_exists; [| left; auto]. simpl.
  destruct (ends_with_xml filepath); [| right; left; auto]. right; right.
  split; [reflexivity |]. split; [reflexivity |]. simpl.
  destruct (parse_tacview_xml cfg l now doc) as [[n d | m] l']; simpl.
  - split; reflexivity.
  - split; [repeat case_match; reflexivity |].
    case_bool_decide as Hd.
    + destruct (bool_decide _ && bool_decide _); simpl; [left; reflexivity | right; left; eauto].
    + case_bool_decide as He; simpl; [right; left; eauto |].
      right; right. split; [destruct (m !! "duplicate") eqn:E; [exfalso; apply Hd; eauto | reflexivity] |].
      auto.
Qed.

Lemma parse_tacview_xml_cases (cfg : config) (l : ledger) (now : Z) (doc : option document) :
  parse_tacview_xml cfg l now doc = (PilotData ∅, l)
  \/ (exists d, doc = Some d
        /\ parse_tacview_xml cfg l now doc = (DuplicateMarker (doc_mission_name d) (doc_mission_date d), l))
  \/ (exists d evs, doc = Some d /\ doc_events d = Some evs
        /\ is_mission_already_processed l (doc_mission_name d) (doc_mission_date d) = false
        /\ parse_tacview_xml cfg l now doc
           = (PilotData (finalize_pilot_data
                (calculate_actual_flight_hours
                   (pilot_missions (process_events cfg
                      (default_mission (doc_mission_date d) (doc_mission_name d)
                         (doc_mission_duration d) (doc_platform d)) evs empty_state))
                   (pilot_positions (process_events cfg
                      (default_mission (doc_mission_date d) (doc_mission_name d)
                         (doc_mission_duration d) (doc_platform d)) evs empty_state)))),
              mark_mission_as_processed l now (doc_mission_name d) (doc_mission_date d))).
Proof.
  unfold parse_tacview_xml. destruct doc as [d |]; [| left; reflexivity].
  destruct (is_mission_already_processed l _ _) eqn:Hp; [right; left; eauto |].
  destruct (doc_events d) as [evs |] eqn:He; [| left; reflexivity].
  right; right. exists d, evs. auto.
Qed.

(** [parse_xml] changes the ledger only by marking the document's
    mission, and only when the file exists, has the [.xml] suffix, parses,
    has an [Events] section and its mission is not in the ledger yet. *)
Theorem parse_xml_ledger_update (cfg : config) (l : ledger) (now : Z) (file_exists : bool)
    (filepath : string) (doc : option document) :
  snd (parse_xml cfg l now file_exists filepath doc) = l
  \/ (file_exists = true /\ ends_with_xml filepath = true
      /\ exists d evs, doc = Some d /\ doc_events d = Some evs
         /\ is_mission_already_processed l (doc_mission_name d) (doc_mission_date d) = false
         /\ snd (parse_xml cfg l now file_exists filepath doc)
            = mark_mission_as_processed l now (doc_mission_name d) (doc_mission_date d)).
Proof.
  destruct (parse_xml_unfold cfg l now file_exists filepath doc)
    as [[_ ->] | [[_ [_ ->]] | (Hf & Hx & Hs & _)]]; [left; reflexivity | left; reflexivity |].
  rewrite Hs.
  destruct (parse_tacview_xml_cases cfg l now doc)
    as [-> | [(d & _ & ->) | (d & evs & Hd & He & Hp & ->)]]; [left; reflexivity | left; reflexivity |].
  right. split; [exact Hf |]. split; [exact Hx |]. exists d, evs. auto.
Qed.

Lemma finalize_pilot_data_lookup (pm : gmap string mission) (k : string) (r : mission) :
  finalize_pilot_data pm !! k = Some r -> exists d, pm !! k = Some d /\ finalize_one d = Some r.
Proof.
  unfold finalize_pilot_data. rewrite lookup_omap.
  destruct (pm !! k) as [d |]; simpl; [eauto | discriminate].
Qed.

(** Every response of [parse_xml] reports success; a duplicate
    response carries no pilots; any other response carries a non-empty
    pilot map without a ["duplicate"] key, [pilots_count] is its size, and
    each of its records has its clamped counters (every [field] but [kia])
    in [0, 10000], [total_kills = aa_kills + ag_kills] (so up to 20000),
    and a platform from [VALID_PLATFORMS]. *)
Theorem parse_xml_response_shape (cfg : config) (l : ledger) (now : Z) (file_exists : bool)
    (filepath : string) (doc : option document) (success duplicate : bool) (pilots_count : nat)
    (pilot_data : gmap string mission) :
  fst (parse_xml cfg l now file_exists filepath doc)
    = Response success duplicate pilots_count pilot_data ->
  success = true
  /\ (duplicate = true -> pilots_count = 0%nat /\ pilot_data = ∅)
  /\ (duplicate = false ->
      pilots_count = size pilot_data /\ (0 < pilots_count)%nat /\ pilot_data !! "duplicate" = None
      /\ forall k r, pilot_data !! k = Some r ->
         (forall f, f <> F_kia -> (0 <= get_field f r <= 10000)%Z)
         /\ total_kills r = (aa_kills r + ag_kills r)%Z /\ In (platform r) VALID_PLATFORMS).
Proof.
  intros Hr.
  destruct (parse_xml_unfold cfg l now file_exists filepath doc)
    as [[_ Hp] | [[_ [_ Hp]] | (_ & _ & _ & Hm)]]; [rewrite Hp in Hr; discriminate | rewrite Hp in Hr; discriminate |].
  assert (Hdup : fst (parse_xml cfg l now file_exists filepath doc) = Response true true 0 ∅ ->
                 success = true /\ (duplicate = true -> pilots_count = 0%nat /\ pilot_data = ∅)
                 /\ (duplicate = false -> False)).
  { intros E. rewrite E in Hr. injection Hr as <- <- <- <-. repeat split; auto; discriminate. }
  destruct (fst (parse_tacview_xml cfg l now doc)) as [n d | m] eqn:Ht.
  - destruct (Hdup Hm) as (H1 & H2 & H3). split; [exact H1 | split; [exact H2 | intros Hf; destruct (H3 Hf)]].
  - destruct Hm as [E | [(c & s & E) | (Hnd & Hne & E)]].
    + destruct (Hdup E) as (H1 & H2 & H3). split; [exact H1 | split; [exact H2 | intros Hf; destruct (H3 Hf)]].
    + rewrite E in Hr. discriminate.
    + rewrite E in Hr. injection Hr as <- <- <- <-.
      split; [reflexivity |]. split; [discriminate |]. intros _.
      split; [reflexivity |]. split.
      { destruct (size m) eqn:Hs; [| lia]. exfalso. apply Hne. apply map_size_empty_inv, Hs. }
      split; [exact Hnd |].
      intros k r Hk.
      destruct (parse_tacview_xml_cases cfg l now doc)
        as [Hp | [(dd & _ & Hp) | (dd & evs & _ & _ & _ & Hp)]];
        rewrite Hp in Ht; simpl in Ht; try discriminate.
      * injection Ht as <-. rewrite lookup_empty in Hk. discriminate.
      * injection Ht as <-. apply finalize_pilot_data_lookup in Hk as (d0 & _ & Hf).
        destruct (finalize_one_bounds d0 r Hf) as (Hb & Htk & Hpl & _). auto.
Qed.

Lemma parse_xml_response_shape_witness :
  exists pilots_count pilot_data,
    fst (parse_xml no_config [] 1 true "op_red.xml" (Some doc_op_red))
      = Response true false pilots_count pilot_data
    /\ pilots_count = size pilot_data /\ (0 < pilots_count)%nat.
Proof.
  destruct (fst (parse_xml no_config [] 1 true "op_red.xml" (Some doc_op_red)))
    as [s dup n m | ec sc] eqn:E.
  - pose proof E as E'. vm_compute in E'. injection E' as Hs Hd _ _. subst s dup.
    exists n, m. split; [reflexivity |].
    destruct (parse_xml_response_shape no_config [] 1 true "op_red.xml" (Some doc_op_red)
                true false n m E) as (_ & _ & H).
    destruct (H eq_refl) as (Hn & Hpos & _). split; assumption.
  - vm_compute in E. discriminate.
Defined.

(* ------------------------------------------------------------------ *)
(** ** [detect_platform] *)

(** [detect_platform] always returns one of [VALID_PLATFORMS];
    the [Mission] element never changes the result; and a generator naming
    Tacview (and no simulator) gives ["DCS"], since ["Tacview"] fails
    [validate_platform]. *)
Theorem detect_platform_valid (generator source : option string) (mission mission' : option (option string)) :
  In (detect_platform generator source mission) VALID_PLATFORMS
  /\ detect_platform generator source mission = detect_platform generator source mission'
  /\ (contains "tacview" (lower_or_empty generator) = true
      -> contains "dcs" (lower_or_empty generator) = false
      -> (contains "bms" (lower_or_empty generator) || contains "falcon" (lower_or_empty generator)) = false
      -> (contains "il2" (lower_or_empty generator) || contains "il-2" (lower_or_empty generator)
          || contains "sturmovik" (lower_or_empty generator)) = false
      -> detect_platform generator source mission = "DCS").
Proof.
  unfold detect_platform.
  set (g := lower_or_empty generator). set (s := lower_or_empty source).
  split; [| split].
  - repeat case_match;
      try (match goal with H : negb (validate_platform _) = _ |- _ => vm_compute in H; discriminate H end);
      vm_compute;
      first [left; reflexivity | right; left; reflexivity | right; right; left; reflexivity].
  - destruct (contains "dcs" g), (contains "bms" g), (contains "falcon" g), (contains "il2" g),
      (contains "il-2" g), (contains "sturmovik" g), (contains "tacview" g),
      (contains "dcs" s), (contains "bms" s), (contains "falcon" s), (contains "il2" s),
      (contains "il-2" s), (contains "sturmovik" s); simpl; try reflexivity;
      destruct mission, mission'; repeat case_match; reflexivity.
  - intros Ht Hd Hb Hi. rewrite Hd. simpl. rewrite Hb, Hi, Ht. reflexivity.
Qed.

Lemma detect_platform_valid_witness :
  detect_platform (Some "Tacview-2.0") None None = "DCS".
Proof.
  refine (proj2 (proj2 (detect_platform_valid (Some "Tacview-2.0") None None None)) _ _ _ _);
    vm_compute; reflexivity.
Defined.

(* ------------------------------------------------------------------ *)
(** ** Interpreter extras *)

(** One event never removes a pilot from [pilot_missions], raises
    each counter of each pilot by 0 or 1, and raises a pilot's
    [aa_kills + ag_kills + frat_kills] only for a [HasBeenDestroyed] event
    with a secondary object, and then by at most 1. *)
Theorem process_event_counter_step (cfg : config) (dflt : mission) (ev : event) (st : state) (k : string) :
  (is_Some (pilot_missions st !! k) -> is_Some (pilot_missions (process_event cfg dflt ev st) !! k))
  /\ (forall g, at_field dflt st k g <= at_field dflt (process_event cfg dflt ev st) k g
               <= at_field dflt st k g + 1)%Z
  /\ (kill_sum dflt (process_event cfg dflt ev st) k
      <= kill_sum dflt st k + if is_kill_event ev then 1 else 0)%Z.
Proof. exact (process_event_bounded cfg dflt ev st k). Qed.

(** An event whose action is not [HasBeenDestroyed], [HasLanded]
    or [HasEjected] changes no counter of any pilot. *)
Theorem process_event_non_scoring (cfg : config) (dflt : mission) (ev : event) (st : state) :
  is_scoring_action (e_action ev) = false ->
  forall k g, at_field dflt (process_event cfg dflt ev st) k g = at_field dflt st k g.
Proof. apply process_event_non_scoring_same. Qed.

Definition sample_takeoff : event :=
  mkEvent (Some "HasTakenOff") (Some sample_primary) None None None.

Lemma process_event_non_scoring_witness :
  is_scoring_action (e_action sample_takeoff) = false
  /\ at_field op_default (process_event viper_config op_default sample_takeoff empty_state) "viper11" F_rtb
     = at_field op_default empty_state "viper11" F_rtb.
Proof.
  split; [vm_compute; reflexivity |].
  apply (process_event_non_scoring viper_config op_default sample_takeoff empty_state).
  vm_compute. reflexivity.
Defined.

(* ------------------------------------------------------------------ *)
(** ** Known players *)

Lemma truthy_lower (s : string) : truthy (lower s) = truthy s.
Proof. destruct s; reflexivity. Qed.

(** [is_known_player] ignores case, and a pilot label it accepts
    is a combatant for every aircraft and group label, unless the label
    is "unknown" in some case. *)
Theorem is_known_player_accepts (cfg : config) (pilot_name aircraft_name group : string) :
  is_known_player cfg (lower pilot_name) = is_known_player cfg pilot_name
  /\ (is_known_player cfg pilot_name = true ->
      String.eqb (lower pilot_name) "unknown" = false ->
      is_player_client cfg pilot_name aircraft_name group = true).
Proof.
  split.
  - unfold is_known_player. rewrite truthy_lower, lower_idem. reflexivity.
  - intros Hk Hu. unfold is_player_client. rewrite Hk, Hu.
    unfold is_known_player in Hk. destruct (truthy pilot_name); [reflexivity | discriminate].
Qed.

Lemma is_known_player_accepts_witness :
  is_player_client alice_config "ALICE" "Tu-95" "" = true.
Proof.
  apply (proj2 (is_known_player_accepts alice_config "ALICE" "Tu-95" "")); vm_compute; reflexivity.
Defined.
